(** * go-cache: the in-process TTL store and the cache facade

    A shallow embedding of [memory.go] (the in-process store), [cache.go]
    (the facade) and of the [Store] interface of [store.go], followed by the
    properties of the specification that were checked against them.

    Conventions of the embedding:
    - Go's [int64] and [time.Duration] are integers of [Z] with the
      wrap-around of the machine written out ([Int64.wrap]);
    - a value of type [interface{}] is an element of the closed variant
      [Value]; the Go [error] is [option error], [None] being [nil];
    - the map [map[string]*item] is a [gmap string item]; every item the
      code stores is freshly allocated and never mutated, so the pointer
      carries no sharing;
    - every method that reads [time.Now()] takes that reading as its first
      argument [now], in Unix nanoseconds; the [ctx] argument, which the
      in-process store never looks at, is dropped;
    - every method returns the store it leaves behind next to its results,
      since the Go methods work on a shared [*MemoryStore]. *)

From Stdlib Require Import ZArith Strings.Byte Strings.Ascii Strings.String DecimalString.
From stdpp Require Import gmap strings list.

Open Scope Z_scope.

(** ** Machine integers *)

Module Int64.

Definition min : Z := - 2 ^ 63.
Definition max : Z := 2 ^ 63 - 1.

Definition in_range (z : Z) : Prop := min <= z <= max.

(** Two's complement reduction of an integer to 64 bits. *)
Definition wrap (z : Z) : Z := (z + 2 ^ 63) mod 2 ^ 64 - 2 ^ 63.

Definition add (a b : Z) : Z := wrap (a + b).
Definition neg (a : Z) : Z := wrap (- a).

End Int64.

(** ** Data model *)

(** The dynamic types a cached [interface{}] value can have. [VInt] is Go's
    [int], [VInt64] is [int64]: the type assertion [value.(int64)] of
    [Increment] tells them apart. [VStruct] stands for a struct (or a map
    with string keys), listed with the JSON names of its fields. *)
#[warnings="-register-all"]
Inductive Value : Type :=
| VNil
| VBool (b : bool)
| VInt (n : Z)
| VInt64 (n : Z)
| VString (s : string)
| VBytes (bs : list byte)
| VStruct (fields : list (string * Value)).

Inductive error : Type :=
| ErrNotFound                 (* errors.New("key not found") *)
| ErrRedisUnavailable         (* errors.New("redis unavailable") *)
| Errorf (msg : string).      (* fmt.Errorf and the errors of libraries *)

(** [type item struct { value interface{}; expiration int64 }] *)
Record item : Type := Item { value : Value; expiration : Z }.

(** [func (i *item) isExpired() bool], at clock reading [now]. *)
Definition isExpired (now : Z) (i : item) : bool :=
  if expiration i =? 0 then false else now >? expiration i.

(** ** The in-process store *)

Module MemoryStore.

(** [type MemoryStore struct]. The mutex [mu] serialises the methods, each
    of which is one atomic step of the embedding; the channel [stop]
    belongs to the life cycle of the reaper ([Module Lifecycle]). *)
Record t : Type := Make { items : gmap string item; cleanup : Z }.

Definition with_items (m : t) (its : gmap string item) : t :=
  {| items := its; cleanup := cleanup m |}.

(** [NewMemoryStore]: an empty map; the reaper is started on the side. *)
Definition NewMemoryStore (cleanupInterval : Z) : t :=
  {| items := ∅; cleanup := cleanupInterval |}.

Definition Get (now : Z) (key : string) (m : t) : (Value * option error) * t :=
  match items m !! key with
  | None => ((VNil, Some ErrNotFound), m)
  | Some it =>
      if isExpired now it then ((VNil, Some ErrNotFound), m)
      else ((value it, None), m)
  end.

(** [time.Now().Add(ttl).UnixNano()] is the sum of the reading and of the
    duration, reduced to 64 bits. *)
Definition Set' (now : Z) (key : string) (v : Value) (ttl : Z) (m : t)
  : option error * t :=
  let expiration := if 0 <? ttl then Int64.add now ttl else 0 in
  (None, with_items m (<[key := {| value := v; expiration := expiration |}]> (items m))).

Definition Delete (key : string) (m : t) : option error * t :=
  (None, with_items m (delete key (items m))).

Definition Has (now : Z) (key : string) (m : t) : bool * t :=
  match items m !! key with
  | None => (false, m)
  | Some it => (negb (isExpired now it), m)
  end.

(** [Increment] (lines 315-335) is not embedded: its source does not
    compile. The variable [item] that line 319 declares hides the type
    [item] in the rest of the body, and line 329 names that type in
    [&item{...}]; [Scope.Increment_body] below follows the identifiers of
    the body. [Decrement] (lines 338-340) only calls [Increment].

    A [Store] must have the two methods all the same. [Increment_repaired]
    is the method with the variable of line 319 under another name, which
    is what the tests expect to run; [Decrement_repaired] calls it with the
    delta negated. They stand in the method set of the store and nowhere
    else: nothing is stated of the code through them. *)
Definition Increment_repaired (now : Z) (key : string) (delta : Z) (m : t)
  : (Z * option error) * t :=
  let current :=
    match items m !! key with
    | Some it =>
        if negb (isExpired now it)
        then match value it with VInt64 val => val | _ => 0 end
        else 0
    | None => 0
    end in
  let newValue := Int64.add current delta in
  ((newValue, None),
   with_items m (<[key := {| value := VInt64 newValue; expiration := 0 |}]> (items m))).

Definition Decrement_repaired (now : Z) (key : string) (delta : Z) (m : t)
  : (Z * option error) * t :=
  Increment_repaired now key (Int64.neg delta) m.

Definition Clear (m : t) : option error * t :=
  (None, with_items m ∅).

(** One tick of [cleanupExpired]: the loop over the map calls
    [item.isExpired()], hence [time.Now()], once for each item;
    [clock key] is the reading taken when the loop is at [key]. *)
Definition sweep (clock : string → Z) (m : t) : t :=
  with_items m
    (filter (λ kv : string * item, isExpired (clock kv.1) kv.2 = false) (items m)).

End MemoryStore.

(** ** The Store interface *)

(** [type Store interface] of [store.go]; [S] is the state of the backend.
    [Close] is left to [Module Lifecycle], the only place where it does
    anything: it talks to the reaper. *)
Module Store.

Class t (S : Type) : Type := {
  Get : Z → string → S → (Value * option error) * S;
  Set' : Z → string → Value → Z → S → option error * S;
  Delete : string → S → option error * S;
  Has : Z → string → S → bool * S;
  Increment : Z → string → Z → S → (Z * option error) * S;
  Decrement : Z → string → Z → S → (Z * option error) * S;
  Clear : S → option error * S
}.

End Store.

#[global] Instance MemoryStore_Store : Store.t MemoryStore.t := {|
  Store.Get := MemoryStore.Get;
  Store.Set' := MemoryStore.Set';
  Store.Delete := MemoryStore.Delete;
  Store.Has := MemoryStore.Has;
  Store.Increment := MemoryStore.Increment_repaired;
  Store.Decrement := MemoryStore.Decrement_repaired;
  Store.Clear := MemoryStore.Clear
|}.

(** A backend that cannot be reached: what the remote store of [redis.go]
    amounts to once its connection is lost. Every call reports the error of
    the client. *)
Module DownStore.

Definition t : Type := unit.

#[global] Instance DownStore_Store : Store.t t := {|
  Store.Get := λ _ _ s, ((VNil, Some ErrRedisUnavailable), s);
  Store.Set' := λ _ _ _ _ s, (Some ErrRedisUnavailable, s);
  Store.Delete := λ _ s, (Some ErrRedisUnavailable, s);
  Store.Has := λ _ _ s, (false, s);
  Store.Increment := λ _ _ _ s, ((0, Some ErrRedisUnavailable), s);
  Store.Decrement := λ _ _ _ s, ((0, Some ErrRedisUnavailable), s);
  Store.Clear := λ s, (Some ErrRedisUnavailable, s)
|}.

End DownStore.

(** ** encoding/json, as the facade sees it *)

(** [json.Marshal(v)] returns the encoding and an error; [json.Unmarshal(data,
    dest)] decodes into the variable [dest] points to: it takes the present
    content of that variable (whose shape stands for its static type) and
    returns the error and the new content. *)
Module json.

Class Codec : Type := {
  Marshal : Value → list byte * option error;
  Unmarshal : list byte → Value → option error * Value
}.

End json.

(** ** The cache facade *)

Module Cache.

(** [type Cache struct { store Store; defaultTTL time.Duration }] *)
Record t (S : Type) : Type := Make { store : S; defaultTTL : Z }.
Arguments Make {S} _ _.
Arguments store {S} _.
Arguments defaultTTL {S} _.

(** A closure [func() (interface{}, error)] over variables of type [W]. *)
Definition Fetcher (W : Type) : Type := W → (Value * option error) * W.

Section Facade.
Context {S : Type} {backend : Store.t S} {codec : json.Codec}.

Definition with_store (c : t S) (s : S) : t S :=
  {| store := s; defaultTTL := defaultTTL c |}.

Definition Get (now : Z) (key : string) (c : t S) : (Value * option error) * t S :=
  let '(r, s) := Store.Get now key (store c) in (r, with_store c s).

Definition Set' (now : Z) (key : string) (v : Value) (c : t S) : option error * t S :=
  let '(r, s) := Store.Set' now key v (defaultTTL c) (store c) in (r, with_store c s).

Definition SetWithTTL (now : Z) (key : string) (v : Value) (ttl : Z) (c : t S)
  : option error * t S :=
  let '(r, s) := Store.Set' now key v ttl (store c) in (r, with_store c s).

Definition Delete (key : string) (c : t S) : option error * t S :=
  let '(r, s) := Store.Delete key (store c) in (r, with_store c s).

Definition Has (now : Z) (key : string) (c : t S) : bool * t S :=
  let '(r, s) := Store.Has now key (store c) in (r, with_store c s).

Definition Increment (now : Z) (key : string) (delta : Z) (c : t S)
  : (Z * option error) * t S :=
  let '(r, s) := Store.Increment now key delta (store c) in (r, with_store c s).

Definition Decrement (now : Z) (key : string) (delta : Z) (c : t S)
  : (Z * option error) * t S :=
  let '(r, s) := Store.Decrement now key delta (store c) in (r, with_store c s).

Definition Clear (c : t S) : option error * t S :=
  let '(r, s) := Store.Clear (store c) in (r, with_store c s).

(** [GetJSON(ctx, key, dest)]: the result is the error and the content of
    [*dest] afterwards. The assertion [value.(interface{})] of the third
    case succeeds on every value but the nil interface. *)
Definition GetJSON (now : Z) (key : string) (dest : Value) (c : t S)
  : (option error * Value) * t S :=
  let '((value, err), c) := Get now key c in
  match err with
  | Some e => ((Some e, dest), c)
  | None =>
      match value with
      | VString str => (json.Unmarshal (String.list_byte_of_string str) dest, c)
      | VBytes bytes => (json.Unmarshal bytes dest, c)
      | VNil => ((Some (Errorf "cannot unmarshal value of type <nil>"), dest), c)
      | destValue =>
          let '(data, err) := json.Marshal destValue in
          match err with
          | Some e => ((Some e, dest), c)
          | None => (json.Unmarshal data dest, c)
          end
      end
  end.

Definition SetJSON (now : Z) (key : string) (v : Value) (c : t S) : option error * t S :=
  SetWithTTL now key v (defaultTTL c) c.

Definition SetJSONWithTTL (now : Z) (key : string) (v : Value) (ttl : Z) (c : t S)
  : option error * t S :=
  SetWithTTL now key v ttl c.

(** [GetOrSet]: [now] is the clock during the [Get], [now'] during the
    [SetWithTTL] that follows the fetch; [w] holds the variables the
    closure [fetcher] works on. *)
Definition GetOrSet {W : Type} (now now' : Z) (key : string) (fetcher : Fetcher W)
    (ttl : Z) (c : t S) (w : W) : (Value * option error) * t S * W :=
  let '((value, err), c) := Get now key c in
  match err with
  | None => ((value, None), c, w)
  | Some _ =>
      let '((value, err), w) := fetcher w in
      match err with
      | Some e => ((VNil, Some e), c, w)
      | None =>
          let '(err, c) := SetWithTTL now' key value ttl c in
          match err with
          | Some _ => ((value, None), c, w)
          | None => ((value, None), c, w)
          end
      end
  end.

Definition Remember {W : Type} (now now' : Z) (key : string) (fetcher : Fetcher W)
    (c : t S) (w : W) : (Value * option error) * t S * W :=
  GetOrSet now now' key fetcher (defaultTTL c) c w.

Definition Forever (now : Z) (key : string) (v : Value) (c : t S) : option error * t S :=
  let '(r, s) := Store.Set' now key v 0 (store c) in (r, with_store c s).

(** [GetMany]: the loop over [keys]; [clock i] is the reading during the
    [i]-th call of [Get], [results] the map being filled. *)
Fixpoint GetMany_loop (clock : nat → Z) (keys : list string)
    (results : gmap string Value) (c : t S) : gmap string Value * t S :=
  match keys with
  | [] => (results, c)
  | key :: keys =>
      let '((value, err), c) := Get (clock 0%nat) key c in
      let results :=
        match err with
        | None => <[key := value]> results
        | Some _ => results
        end in
      GetMany_loop (λ i, clock (Datatypes.S i)) keys results c
  end.

Definition GetMany (clock : nat → Z) (keys : list string) (c : t S)
  : (gmap string Value * option error) * t S :=
  let '(results, c) := GetMany_loop clock keys ∅ c in ((results, None), c).

(** [SetMany]: [items] lists the entries of the Go map in the order the
    [range] statement yields them; [clock i] is the reading during the
    [i]-th call of [SetWithTTL]. *)
Fixpoint SetMany (clock : nat → Z) (items : list (string * Value)) (ttl : Z) (c : t S)
  : option error * t S :=
  match items with
  | [] => (None, c)
  | (key, value) :: items =>
      let '(err, c) := SetWithTTL (clock 0%nat) key value ttl c in
      match err with
      | Some e => (Some e, c)
      | None => SetMany (λ i, clock (Datatypes.S i)) items ttl c
      end
  end.

Fixpoint DeleteMany (keys : list string) (c : t S) : option error * t S :=
  match keys with
  | [] => (None, c)
  | key :: keys =>
      let '(err, c) := Delete key c in
      match err with
      | Some e => (Some e, c)
      | None => DeleteMany keys c
      end
  end.

Definition GetStore (c : t S) : S := store c.

End Facade.

End Cache.

(** ** Configuration and construction *)

(** [config.go]: [type Backend string] and [type Config struct]. *)
Module Config.

Definition BackendMemory : string := "memory".
Definition BackendRedis : string := "redis".

Record t : Type := Make {
  Backend : string;
  RedisURL : string;
  DefaultTTL : Z;
  CleanupInterval : Z
}.

(** [1 * time.Hour] and [10 * time.Minute], in nanoseconds. *)
Definition DefaultConfig : t :=
  {| Backend := BackendMemory;
     RedisURL := EmptyString;
     DefaultTTL := 1 * 3600000000000;
     CleanupInterval := 10 * 60000000000 |}.

End Config.

(** A variable of the interface type [Store] holds one backend or the
    other; the calls go to the one it holds. *)
#[global] Instance sum_Store {A B : Type} {left : Store.t A} {right : Store.t B}
  : Store.t (A + B) := {|
  Store.Get now key s :=
    match s with
    | inl a => let '(r, a) := Store.Get now key a in (r, inl a)
    | inr b => let '(r, b) := Store.Get now key b in (r, inr b)
    end;
  Store.Set' now key v ttl s :=
    match s with
    | inl a => let '(r, a) := Store.Set' now key v ttl a in (r, inl a)
    | inr b => let '(r, b) := Store.Set' now key v ttl b in (r, inr b)
    end;
  Store.Delete key s :=
    match s with
    | inl a => let '(r, a) := Store.Delete key a in (r, inl a)
    | inr b => let '(r, b) := Store.Delete key b in (r, inr b)
    end;
  Store.Has now key s :=
    match s with
    | inl a => let '(r, a) := Store.Has now key a in (r, inl a)
    | inr b => let '(r, b) := Store.Has now key b in (r, inr b)
    end;
  Store.Increment now key delta s :=
    match s with
    | inl a => let '(r, a) := Store.Increment now key delta a in (r, inl a)
    | inr b => let '(r, b) := Store.Increment now key delta b in (r, inr b)
    end;
  Store.Decrement now key delta s :=
    match s with
    | inl a => let '(r, a) := Store.Decrement now key delta a in (r, inl a)
    | inr b => let '(r, b) := Store.Decrement now key delta b in (r, inr b)
    end;
  Store.Clear s :=
    match s with
    | inl a => let '(r, a) := Store.Clear a in (r, inl a)
    | inr b => let '(r, b) := Store.Clear b in (r, inr b)
    end
|}.

(** [err.Error()] *)
Definition Error (e : error) : string :=
  match e with
  | ErrNotFound => "key not found"
  | ErrRedisUnavailable => "redis unavailable"
  | Errorf msg => msg
  end.

(** [New(config)] of [cache.go]. [R] is the state of the
    remote store and [NewRedisStore] its constructor, which connects to the
    server of the URL and returns a store or an error. A nil [config] is
    [None], and so is the nil cache returned with an error. The error made with [%w] is kept as
    its message. *)
Section New.
Context {R : Type} {remote : Store.t R}.
Variable NewRedisStore : string → R + error.

Definition New (config : option Config.t)
  : option (Cache.t (MemoryStore.t + R)) * option error :=
  let config := match config with Some config => config | None => Config.DefaultConfig end in
  if String.eqb (Config.Backend config) Config.BackendMemory then
    (Some {| Cache.store := inl (MemoryStore.NewMemoryStore (Config.CleanupInterval config));
             Cache.defaultTTL := Config.DefaultTTL config |}, None)
  else if String.eqb (Config.Backend config) Config.BackendRedis then
    if String.eqb (Config.RedisURL config) EmptyString then
      (None, Some (Errorf "RedisURL is required for Redis backend"))
    else
      match NewRedisStore (Config.RedisURL config) with
      | inr err => (None, Some (Errorf ("failed to create Redis store: " +:+ Error err)))
      | inl store =>
          (Some {| Cache.store := inr store;
                   Cache.defaultTTL := Config.DefaultTTL config |}, None)
      end
  else (None, Some (Errorf ("unsupported backend: " +:+ Config.Backend config))).

End New.

(** ** A JSON codec

    An executable stand-in for [encoding/json] on a fragment of JSON: [null],
    the booleans, integers without fraction or exponent, strings of printable
    ASCII characters (the quote and the backslash escaped, no other escape),
    and objects whose members come in the order of the fields of the struct
    they are decoded into; no white space. On this fragment it reads and
    writes what the library does; everything else is refused with an error,
    be it a byte slice to encode or a text the library would still accept. *)
Module JSONText.

Definition quote : ascii := "034"%char.
Definition backslash : ascii := "\"%char.

(** Characters written and read as they are inside a string. *)
Definition plain (a : ascii) : bool :=
  let n := nat_of_ascii a in
  ((32 <=? n) && (n <=? 126))%nat
  && negb (Ascii.eqb a quote) && negb (Ascii.eqb a backslash)
  && negb (Ascii.eqb a "<") && negb (Ascii.eqb a ">") && negb (Ascii.eqb a "&").

Definition decimal (n : Z) : string :=
  DecimalString.NilZero.string_of_int (Z.to_int n).

Fixpoint escaped (s : string) : option string :=
  match s with
  | EmptyString => Some EmptyString
  | String a s' =>
      r ← escaped s';
      if Ascii.eqb a quote || Ascii.eqb a backslash then Some (String backslash (String a r))
      else if plain a then Some (String a r)
      else None
  end.

Definition quoted (s : string) : option string :=
  r ← escaped s; Some (String quote (r +:+ String quote EmptyString)).

Fixpoint encode (v : Value) : option string :=
  match v with
  | VNil => Some "null"%string
  | VBool b => Some (if b then "true" else "false")%string
  | VInt n | VInt64 n => Some (decimal n)
  | VString s => quoted s
  | VBytes _ => None
  | VStruct fields =>
      body ← (fix members (fs : list (string * Value)) (first : bool) : option string :=
                match fs with
                | [] => Some EmptyString
                | (name, v) :: fs' =>
                    k ← quoted name;
                    e ← encode v;
                    r ← members fs' false;
                    Some ((if first then EmptyString else ","%string) +:+ k +:+ ":" +:+ e +:+ r)
                end) fields true;
      Some ("{" +:+ body +:+ "}")
  end.

(** [strip p s] removes the prefix [p] from [s]. *)
Fixpoint strip (p s : string) : option string :=
  match p, s with
  | EmptyString, _ => Some s
  | String a p', String b s' => if Ascii.eqb a b then strip p' s' else None
  | String _ _, EmptyString => None
  end.

Definition digit (a : ascii) : option Z :=
  let n := nat_of_ascii a in
  if ((48 <=? n) && (n <=? 57))%nat then Some (Z.of_nat n - 48) else None.

Fixpoint digits (acc : Z) (s : string) : Z * string :=
  match s with
  | EmptyString => (acc, s)
  | String a s' =>
      match digit a with
      | Some d => digits (10 * acc + d) s'
      | None => (acc, s)
      end
  end.

(** An integer: an optional sign, then [0] or a digit other than [0]
    followed by digits. *)
Definition number (s : string) : option (Z * string) :=
  let '(negative, s) :=
    match s with
    | String "-" s' => (true, s')
    | _ => (false, s)
    end in
  match s with
  | EmptyString => None
  | String a s' =>
      d ← digit a;
      let '(n, r) := if d =? 0 then (0, s') else digits d s' in
      Some (if negative : bool then - n else n, r)
  end.

Definition integer (s : string) : option (Z * string) :=
  '(n, r) ← number s;
  if (Int64.min <=? n) && (n <=? Int64.max) then Some (n, r) else None.

(** The content of a string and what follows its closing quote. *)
Fixpoint unescaped (s : string) : option (string * string) :=
  match s with
  | EmptyString => None
  | String a s' =>
      if Ascii.eqb a quote then Some (EmptyString, s')
      else if Ascii.eqb a backslash then
        match s' with
        | String b s'' =>
            if Ascii.eqb b quote || Ascii.eqb b backslash
            then '(c, r) ← unescaped s''; Some (String b c, r)
            else None
        | EmptyString => None
        end
      else if plain a then '(c, r) ← unescaped s'; Some (String a c, r)
      else None
  end.

Definition text (s : string) : option (string * string) :=
  match s with
  | String a s' => if Ascii.eqb a quote then unescaped s' else None
  | EmptyString => None
  end.

(** Decoding into a variable whose content is [dest]. [null] leaves a
    variable that is not a pointer as it is. A variable of type
    [interface{}] takes a boolean or a string of this fragment. *)
Fixpoint decode (dest : Value) (s : string) : option (Value * string) :=
  match strip "null" s with
  | Some r => Some (dest, r)
  | None =>
      match dest with
      | VNil =>
          match strip "true" s, strip "false" s with
          | Some r, _ => Some (VBool true, r)
          | None, Some r => Some (VBool false, r)
          | None, None => '(c, r) ← text s; Some (VString c, r)
          end
      | VBool _ =>
          match strip "true" s, strip "false" s with
          | Some r, _ => Some (VBool true, r)
          | None, Some r => Some (VBool false, r)
          | None, None => None
          end
      | VInt _ => '(n, r) ← integer s; Some (VInt n, r)
      | VInt64 _ => '(n, r) ← integer s; Some (VInt64 n, r)
      | VString _ => '(c, r) ← text s; Some (VString c, r)
      | VBytes _ => None
      | VStruct fields =>
          s ← strip "{" s;
          '(vs, s) ← (fix members (fs : list (string * Value)) (first : bool) (s : string)
                        : option (list (string * Value) * string) :=
                        match fs with
                        | [] => Some ([], s)
                        | (name, d) :: fs' =>
                            s ← (if first then Some s else strip "," s);
                            k ← quoted name;
                            s ← strip (k +:+ ":") s;
                            '(v, s) ← decode d s;
                            '(vs, s) ← members fs' false s;
                            Some ((name, v) :: vs, s)
                        end) fields true s;
          r ← strip "}" s;
          Some (VStruct vs, r)
      end
  end.

Definition refused : error := Errorf "json: outside the fragment of the codec".

Definition Marshal (v : Value) : list byte * option error :=
  match encode v with
  | Some s => (String.list_byte_of_string s, None)
  | None => ([], Some refused)
  end.

Definition Unmarshal (data : list byte) (dest : Value) : option error * Value :=
  match decode dest (String.string_of_list_byte data) with
  | Some (v, EmptyString) => (None, v)
  | _ => (Some refused, dest)
  end.

#[global] Instance codec : json.Codec := {|
  json.Marshal := Marshal;
  json.Unmarshal := Unmarshal
|}.

End JSONText.

(** ** The reaper and [Close]

    [NewMemoryStore] starts the goroutine [cleanupExpired]; [Close] is the
    statement [m.stop <- true] on the channel made by [make(chan bool)],
    which has no buffer: the send completes when, and only when, the reaper
    takes the value in the [case <-m.stop] of its [select]. The transition
    system below has the reaper and the calls of [Close] in flight as its
    threads. *)
Module Lifecycle.

(** Where [cleanupExpired] stands: before [time.NewTicker(m.cleanup)];
    blocked in the [select]; returned; or stopped by the panic that
    [time.NewTicker] raises on an interval that is not positive. *)
Inductive reaper : Type := Starting | Waiting | Exited | Panicked.

(** Where a call of [Close] stands: at the send, or returned. *)
Inductive closer : Type := Sending | Returned.

(** [delivered] counts the values the reaper has received from [m.stop]. *)
Record system : Type := System {
  store : MemoryStore.t;
  task : reaper;
  calls : list closer;
  delivered : nat
}.

(** The state [NewMemoryStore(cleanupInterval)] leaves, with [n] calls of
    [Close] being made. *)
Definition boot (cleanupInterval : Z) (n : nat) : system :=
  {| store := MemoryStore.NewMemoryStore cleanupInterval;
     task := Starting;
     calls := replicate n Sending;
     delivered := 0 |}.

Definition with_task (s : system) (r : reaper) : system :=
  {| store := store s; task := r; calls := calls s; delivered := delivered s |}.

Definition with_store (s : system) (m : MemoryStore.t) : system :=
  {| store := m; task := task s; calls := calls s; delivered := delivered s |}.

(** The rendezvous of the [i]-th call of [Close] with the reaper. *)
Definition handoff (s : system) (i : nat) : system :=
  {| store := store s;
     task := Exited;
     calls := <[i := Returned]> (calls s);
     delivered := S (delivered s) |}.

Inductive step : system → system → Prop :=
| step_ticker s :
    task s = Starting → 0 < MemoryStore.cleanup (store s) →
    step s (with_task s Waiting)
| step_panic s :
    task s = Starting → MemoryStore.cleanup (store s) <= 0 →
    step s (with_task s Panicked)
| step_tick s clock :
    task s = Waiting →
    step s (with_store s (MemoryStore.sweep clock (store s)))
| step_stop s i :
    task s = Waiting → calls s !! i = Some Sending →
    step s (handoff s i).

Definition has_returned (c : closer) : bool :=
  match c with Returned => true | Sending => false end.

(** The number of calls of [Close] that have returned. *)
Definition returned (s : system) : nat :=
  length (filter (λ c, has_returned c = true) (calls s)).

(** What holds of every state the system comes to after [NewMemoryStore]:
    the interval is the configured one; until the hand-over every call of
    [Close] is at its send and nothing was delivered; after it, one value
    was delivered and one call, the one that sent it, has returned. *)
Definition shape (c : Z) (n : nat) (s : system) : Prop :=
  MemoryStore.cleanup (store s) = c
  ∧ match task s with
    | Exited =>
        delivered s = 1%nat
        ∧ ∃ i, (i < n)%nat ∧ calls s = <[i := Returned]> (replicate n Sending)
    | Panicked => c <= 0 ∧ delivered s = 0%nat ∧ calls s = replicate n Sending
    | Starting | Waiting => delivered s = 0%nat ∧ calls s = replicate n Sending
    end.

End Lifecycle.

(** ** The identifiers of a method body

    Go resolves an identifier to its innermost declaration in scope: a
    variable declared in a function hides, from the end of its declaration
    to the end of the block, a type of the package with the same name. The
    bodies below list, line by line, the identifiers the methods declare and
    the ones they use where a type or where a value must stand. Qualified
    identifiers ([time.Now], [context.Context]) and the names of fields and
    methods after a dot are resolved otherwise and left out. *)
Module Scope.

Inductive entity : Type := IsType | IsValue.

#[warnings="-register-all"]
Inductive stmt : Type :=
| Binds (line : nat) (names : list string)   (* variables, in scope from the next statement *)
| AsType (line : nat) (name : string)          (* the name stands where a type must *)
| AsValue (line : nat) (name : string)         (* the name stands where a value must *)
| Block (body : list stmt).                    (* an inner block *)

Inductive verdict : Type :=
| Compiles
| NotAType (line : nat) (name : string)
| NotAValue (line : nat) (name : string)
| Undefined (line : nat) (name : string).

(** The declarations in scope, innermost first. *)
Definition env : Type := list (string * entity).

Fixpoint denotes (e : env) (x : string) : option entity :=
  match e with
  | [] => None
  | (y, k) :: e' => if String.eqb x y then Some k else denotes e' x
  end.

(** The verdict on a statement and the declarations in scope after it. What
    a block declares ends with the block. *)
Fixpoint run (s : stmt) (e : env) : verdict * env :=
  match s with
  | Binds _ names => (Compiles, map (λ x, (x, IsValue)) names ++ e)
  | AsType line x =>
      (match denotes e x with
       | Some IsType => Compiles
       | Some IsValue => NotAType line x
       | None => Undefined line x
       end, e)
  | AsValue line x =>
      (match denotes e x with
       | Some IsValue => Compiles
       | Some IsType => NotAValue line x
       | None => Undefined line x
       end, e)
  | Block body =>
      ((fix all (body : list stmt) (e : env) : verdict :=
          match body with
          | [] => Compiles
          | s :: rest =>
              let '(v, e') := run s e in
              match v with
              | Compiles => all rest e'
              | _ => v
              end
          end) body e, e)
  end.

Definition check (e : env) (body : list stmt) : verdict := (run (Block body) e).1.

(** The predeclared identifiers the methods use, and the types, variables
    and functions of the package. *)
Definition package : env :=
  [("item", IsType); ("MemoryStore", IsType); ("Cache", IsType); ("Store", IsType);
   ("Config", IsType); ("Backend", IsType); ("RedisStore", IsType);
   ("ErrNotFound", IsValue); ("ErrRedisUnavailable", IsValue);
   ("NewMemoryStore", IsValue); ("NewRedisStore", IsValue); ("New", IsValue);
   ("DefaultConfig", IsValue); ("BackendMemory", IsValue); ("BackendRedis", IsValue);
   ("bool", IsType); ("int64", IsType); ("string", IsType); ("error", IsType);
   ("true", IsValue); ("false", IsValue); ("nil", IsValue)]%string.

(** [MemoryStore.Get], lines 258-272. *)
Definition Get_body : list stmt :=
  [AsType 258 "MemoryStore"; AsType 258 "string"; AsType 258 "error";
   Binds 258 ["m"; "ctx"; "key"];
   AsValue 259 "m";
   AsValue 260 "m";
   AsValue 262 "m"; AsValue 262 "key"; Binds 262 ["item"; "found"];
   AsValue 263 "found";
   Block [AsValue 264 "nil"; AsValue 264 "ErrNotFound"];
   AsValue 267 "item";
   Block [AsValue 268 "nil"; AsValue 268 "ErrNotFound"];
   AsValue 271 "item"; AsValue 271 "nil"]%string.

(** [MemoryStore.Set], lines 275-290. *)
Definition Set_body : list stmt :=
  [AsType 275 "MemoryStore"; AsType 275 "string"; AsType 275 "error";
   Binds 275 ["m"; "ctx"; "key"; "value"; "ttl"];
   AsValue 276 "m";
   AsValue 277 "m";
   AsType 279 "int64"; Binds 279 ["expiration"];
   AsValue 280 "ttl";
   Block [AsValue 281 "expiration"; AsValue 281 "ttl"];
   AsValue 284 "m"; AsValue 284 "key"; AsType 284 "item";
   AsValue 285 "value";
   AsValue 286 "expiration";
   AsValue 289 "nil"]%string.

(** [MemoryStore.Increment], lines 315-335. *)
Definition Increment_body : list stmt :=
  [AsType 315 "MemoryStore"; AsType 315 "string"; AsType 315 "int64";
   AsType 315 "int64"; AsType 315 "error";
   Binds 315 ["m"; "ctx"; "key"; "delta"];
   AsValue 316 "m";
   AsValue 317 "m";
   AsValue 319 "m"; AsValue 319 "key"; Binds 319 ["item"; "found"];
   AsType 320 "int64"; Binds 320 ["current"];
   AsValue 322 "found"; AsValue 322 "item";
   Block [
     Block [AsValue 323 "item"; AsType 323 "int64"; Binds 323 ["val"; "ok"];
            AsValue 323 "ok";
            Block [AsValue 324 "current"; AsValue 324 "val"]]];
   AsValue 328 "current"; AsValue 328 "delta"; Binds 328 ["newValue"];
   AsValue 329 "m"; AsValue 329 "key"; AsType 329 "item";
   AsValue 330 "newValue";
   AsValue 334 "newValue"; AsValue 334 "nil"]%string.

(** [MemoryStore.Decrement], lines 338-340. *)
Definition Decrement_body : list stmt :=
  [AsType 338 "MemoryStore"; AsType 338 "string"; AsType 338 "int64";
   AsType 338 "int64"; AsType 338 "error";
   Binds 338 ["m"; "ctx"; "key"; "delta"];
   AsValue 339 "m"; AsValue 339 "ctx"; AsValue 339 "key"; AsValue 339 "delta"]%string.

End Scope.

(** ** Values of the tests *)

(** [User{ID: 123, Name: "John"}] of [TestJSON], and the zero value of the
    variable [retrieved] it is read back into. *)
Module User.

Definition john : Value :=
  VStruct [("id"%string, VInt 123); ("name"%string, VString "John")].

Definition zero : Value :=
  VStruct [("id"%string, VInt 0); ("name"%string, VString EmptyString)].

End User.

(** The fetcher of [TestGetOrSet]; its variable is [fetchCount]. *)
Definition counting_fetcher : Cache.Fetcher nat :=
  λ fetchCount, ((VString "fetched_value", None), S fetchCount).

(** * Properties *)

Ltac int64_range := unfold Int64.in_range, Int64.min, Int64.max; lia.

(** ** 64-bit arithmetic *)

Lemma Int64_wrap_in_range (z : Z) : Int64.in_range (Int64.wrap z).
Proof.
  unfold Int64.in_range, Int64.wrap, Int64.min, Int64.max.
  pose proof (Z.mod_pos_bound (z + 2 ^ 63) (2 ^ 64)). lia.
Qed.

Lemma Int64_wrap_id (z : Z) : Int64.in_range z → Int64.wrap z = z.
Proof.
  unfold Int64.in_range, Int64.wrap, Int64.min, Int64.max. intros Hz.
  rewrite Z.mod_small; lia.
Qed.

Lemma Int64_add_exact (a b : Z) : Int64.in_range (a + b) → Int64.add a b = a + b.
Proof. apply Int64_wrap_id. Qed.

Lemma Int64_add_zero_l (b : Z) : Int64.in_range b → Int64.add 0 b = b.
Proof. intros Hb. unfold Int64.add. rewrite Z.add_0_l. by apply Int64_wrap_id. Qed.

(** Past the epoch, the instant [Set] computes for a positive duration is
    never the [0] that stands for "no expiration": the sum either fits, and
    is positive, or wraps around to a negative number. *)
Lemma Int64_add_after_epoch (now ttl : Z) :
  0 <= now → Int64.in_range now → 0 < ttl → Int64.in_range ttl →
  Int64.add now ttl ≠ 0.
Proof.
  unfold Int64.in_range, Int64.add, Int64.wrap, Int64.min, Int64.max.
  intros Hnow [_ Hn] Httl [_ Ht].
  destruct (Z_le_gt_dec (now + ttl) (2 ^ 63 - 1)) as [Hfit | Hover].
  - rewrite Z.mod_small; lia.
  - replace (now + ttl + 2 ^ 63) with (now + ttl - 2 ^ 63 + 1 * 2 ^ 64) by lia.
    rewrite Z_mod_plus_full, Z.mod_small; lia.
Qed.

(** ** The map of the store *)

Lemma isExpired_never (now : Z) (v : Value) : isExpired now (Item v 0) = false.
Proof. reflexivity. Qed.

Lemma isExpired_past (now : Z) (it : item) :
  expiration it ≠ 0 → expiration it < now → isExpired now it = true.
Proof.
  unfold isExpired. intros Hz Hlt.
  destruct (Z.eqb_spec (expiration it) 0) as [? | _]; [done |].
  apply Z.gtb_lt. lia.
Qed.

Lemma isExpired_not_yet (now : Z) (it : item) :
  now <= expiration it → isExpired now it = false.
Proof.
  unfold isExpired. intros Hle.
  destruct (expiration it =? 0); [done |].
  rewrite Z.gtb_ltb. apply Z.ltb_ge. lia.
Qed.

Lemma Set_items (now : Z) (key : string) (v : Value) (ttl : Z) (m : MemoryStore.t) :
  0 < ttl →
  MemoryStore.items (MemoryStore.Set' now key v ttl m).2 !! key
  = Some (Item v (Int64.add now ttl)).
Proof.
  intros Httl. unfold MemoryStore.Set'. cbn.
  destruct (Z.ltb_spec 0 ttl) as [_ | ?]; [| lia].
  apply lookup_insert_eq.
Qed.

(** What a sweep of the reaper leaves of a key. *)
Lemma sweep_lookup (clock : string → Z) (m : MemoryStore.t) (key : string) :
  MemoryStore.items (MemoryStore.sweep clock m) !! key
  = match MemoryStore.items m !! key with
    | Some it => if isExpired (clock key) it then None else Some it
    | None => None
    end.
Proof.
  unfold MemoryStore.sweep. cbn.
  destruct (MemoryStore.items m !! key) as [it |] eqn:Hit.
  - destruct (isExpired (clock key) it) eqn:Hexp.
    + apply map_lookup_filter_None. right. intros it' Hit'. cbn.
      rewrite Hit in Hit'. injection Hit' as <-. congruence.
    + apply map_lookup_filter_Some. split; [done |]. cbn. done.
  - apply map_lookup_filter_None. by left.
Qed.

(** Sweeps, however many and whatever the clock shows during them, either
    leave an item alone or remove it. *)
Lemma sweeps_lookup (sweeps : list (string → Z)) (m : MemoryStore.t) (key : string) :
  let m' := foldl (λ m clock, MemoryStore.sweep clock m) m sweeps in
  MemoryStore.items m' !! key = None
  ∨ MemoryStore.items m' !! key = MemoryStore.items m !! key.
Proof.
  revert m. induction sweeps as [| clock sweeps IH]; intros m.
  - by right.
  - change (foldl (λ m clock, MemoryStore.sweep clock m) m (clock :: sweeps))
      with (foldl (λ m clock, MemoryStore.sweep clock m) (MemoryStore.sweep clock m) sweeps).
    intros m'. subst m'.
    destruct (IH (MemoryStore.sweep clock m)) as [Hnone | Hsame]; [by left |].
    rewrite Hsame, sweep_lookup.
    destruct (MemoryStore.items m !! key) as [it |]; [| by left].
    destruct (isExpired (clock key) it); [by left | by right].
Qed.

Lemma Get_expired (now : Z) (key : string) (m : MemoryStore.t) (it : item) :
  MemoryStore.items m !! key = Some it → isExpired now it = true →
  MemoryStore.Get now key m = ((VNil, Some ErrNotFound), m)
  ∧ MemoryStore.Has now key m = (false, m).
Proof.
  intros Hit Hexp. unfold MemoryStore.Get, MemoryStore.Has. by rewrite Hit, Hexp.
Qed.

Lemma Get_absent (now : Z) (key : string) (m : MemoryStore.t) :
  MemoryStore.items m !! key = None →
  MemoryStore.Get now key m = ((VNil, Some ErrNotFound), m)
  ∧ MemoryStore.Has now key m = (false, m).
Proof.
  intros Hit. unfold MemoryStore.Get, MemoryStore.Has. by rewrite Hit.
Qed.

Lemma Get_live (now : Z) (key : string) (m : MemoryStore.t) (it : item) :
  MemoryStore.items m !! key = Some it → isExpired now it = false →
  MemoryStore.Get now key m = ((value it, None), m)
  ∧ MemoryStore.Has now key m = (true, m).
Proof.
  intros Hit Hexp. unfold MemoryStore.Get, MemoryStore.Has. by rewrite Hit, Hexp.
Qed.

Lemma with_items_same (m : MemoryStore.t) :
  MemoryStore.with_items m (MemoryStore.items m) = m.
Proof. by destruct m. Qed.

(** ** Expiration on the read path *)

(** C1: lazy expiration. Let [Set(key, v, ttl)] with [ttl > 0] run at clock
    reading [t0] (not before the Unix epoch) and let [t1] be a reading past
    the instant [t0 + ttl] that [Set] stored. Then [Get(key)] at [t1] reports
    [ErrNotFound] and [Has(key)] reports [false], while the item is still in
    the map when the reaper has not run; and the same answers come after any
    number of sweeps of the reaper, whatever the clock during them. *)
Theorem lazy_expiration_after_Set
    (m : MemoryStore.t) (key : string) (v : Value) (ttl t0 t1 : Z)
    (sweeps : list (string → Z)) :
  0 < ttl → Int64.in_range ttl → 0 <= t0 → Int64.in_range t0 →
  Int64.add t0 ttl < t1 →
  let m1 := (MemoryStore.Set' t0 key v ttl m).2 in
  let m2 := foldl (λ m clock, MemoryStore.sweep clock m) m1 sweeps in
  MemoryStore.items m1 !! key = Some (Item v (Int64.add t0 ttl))
  ∧ MemoryStore.Get t1 key m1 = ((VNil, Some ErrNotFound), m1)
  ∧ MemoryStore.Has t1 key m1 = (false, m1)
  ∧ MemoryStore.Get t1 key m2 = ((VNil, Some ErrNotFound), m2)
  ∧ MemoryStore.Has t1 key m2 = (false, m2).
Proof.
  intros Httl Hrt Ht0 Hr0 Hpast m1 m2.
  assert (Hit : MemoryStore.items m1 !! key = Some (Item v (Int64.add t0 ttl)))
    by (by apply Set_items).
  assert (Hexp : isExpired t1 (Item v (Int64.add t0 ttl)) = true).
  { apply isExpired_past; cbn; [by apply Int64_add_after_epoch | done]. }
  destruct (Get_expired t1 key m1 _ Hit Hexp) as [Hget Hhas].
  repeat split; try done.
  - destruct (sweeps_lookup sweeps m1 key) as [Hnone | Hsame].
    + by apply Get_absent.
    + fold m2 in Hsame. rewrite Hit in Hsame. by apply (Get_expired t1 key m2 _ Hsame).
  - destruct (sweeps_lookup sweeps m1 key) as [Hnone | Hsame].
    + by apply Get_absent.
    + fold m2 in Hsame. rewrite Hit in Hsame. by apply (Get_expired t1 key m2 _ Hsame).
Qed.

(** The case of [TestExpiration]: a TTL of 100ms, read again 150ms later, with
    no sweep and with one sweep in between. *)
Lemma lazy_expiration_after_Set_witness :
  let m := MemoryStore.NewMemoryStore 0 in
  let key := "expire_key"%string in
  let v := VString "expire_value" in
  let ttl := 100000000 in
  let t0 := 1700000000000000000 in
  let t1 := t0 + 150000000 in
  let m1 := (MemoryStore.Set' t0 key v ttl m).2 in
  let m2 := foldl (λ m clock, MemoryStore.sweep clock m) m1 [λ _, t0 + 120000000] in
  (0 < ttl ∧ Int64.in_range ttl ∧ 0 <= t0 ∧ Int64.in_range t0 ∧ Int64.add t0 ttl < t1)
  ∧ MemoryStore.items m1 !! key = Some (Item v (Int64.add t0 ttl))
  ∧ MemoryStore.Get t1 key m1 = ((VNil, Some ErrNotFound), m1)
  ∧ MemoryStore.Has t1 key m1 = (false, m1)
  ∧ MemoryStore.Get t1 key m2 = ((VNil, Some ErrNotFound), m2)
  ∧ MemoryStore.Has t1 key m2 = (false, m2).
Proof.
  intros m key v ttl t0 t1 m1 m2.
  assert (H1 : 0 < ttl) by (subst ttl; lia).
  assert (H2 : Int64.in_range ttl) by (subst ttl; int64_range).
  assert (H3 : 0 <= t0) by (subst t0; lia).
  assert (H4 : Int64.in_range t0) by (subst t0; int64_range).
  assert (H5 : Int64.add t0 ttl < t1) by (vm_compute; reflexivity).
  split; [done |].
  exact (lazy_expiration_after_Set m key v ttl t0 t1 [λ _, t0 + 120000000] H1 H2 H3 H4 H5).
Defined.

(** C2: a fresh item is served. Let [Set(key, v, ttl)] with [ttl > 0] run at
    clock reading [t0], and let [t1] be a reading at which the instant that
    [Set] stored has not passed. Then [Set] returned no error, [Get(key)] at
    [t1] returns [v] with no error and [Has(key)] returns [true]. *)
Theorem Get_Has_right_after_Set
    (m : MemoryStore.t) (key : string) (v : Value) (ttl t0 t1 : Z) :
  0 < ttl → t1 <= Int64.add t0 ttl →
  let m1 := (MemoryStore.Set' t0 key v ttl m).2 in
  (MemoryStore.Set' t0 key v ttl m).1 = None
  ∧ MemoryStore.Get t1 key m1 = ((v, None), m1)
  ∧ MemoryStore.Has t1 key m1 = (true, m1).
Proof.
  intros Httl Hle m1.
  assert (Hit : MemoryStore.items m1 !! key = Some (Item v (Int64.add t0 ttl)))
    by (by apply Set_items).
  assert (Hexp : isExpired t1 (Item v (Int64.add t0 ttl)) = false)
    by (by apply isExpired_not_yet).
  destruct (Get_live t1 key m1 _ Hit Hexp) as [Hget Hhas].
  by repeat split.
Qed.

(** The first steps of [TestExpiration]: the key is there right after it was
    set, the clock having moved by a microsecond. *)
Lemma Get_Has_right_after_Set_witness :
  let m := MemoryStore.NewMemoryStore 0 in
  let key := "expire_key"%string in
  let v := VString "expire_value" in
  let ttl := 100000000 in
  let t0 := 1700000000000000000 in
  let t1 := t0 + 1000 in
  let m1 := (MemoryStore.Set' t0 key v ttl m).2 in
  (0 < ttl ∧ t1 <= Int64.add t0 ttl)
  ∧ (MemoryStore.Set' t0 key v ttl m).1 = None
  ∧ MemoryStore.Get t1 key m1 = ((v, None), m1)
  ∧ MemoryStore.Has t1 key m1 = (true, m1).
Proof.
  intros m key v ttl t0 t1 m1.
  assert (H1 : 0 < ttl) by (subst ttl; lia).
  assert (H2 : t1 <= Int64.add t0 ttl) by (vm_compute; discriminate).
  split; [done |].
  exact (Get_Has_right_after_Set m key v ttl t0 t1 H1 H2).
Defined.

(** As long as the sum fits in 64 bits, "the instant has not passed" is the
    plain comparison of the reading with [t0 + ttl]. *)
Lemma Get_before_sum (m : MemoryStore.t) (key : string) (v : Value) (ttl t0 t1 : Z) :
  0 < ttl → Int64.in_range (t0 + ttl) → t1 <= t0 + ttl →
  MemoryStore.Get t1 key (MemoryStore.Set' t0 key v ttl m).2
  = ((v, None), (MemoryStore.Set' t0 key v ttl m).2).
Proof.
  intros Httl Hfit Hle.
  refine (proj1 (Get_live t1 key _ (Item v (Int64.add t0 ttl)) _ _)).
  - by apply Set_items.
  - apply isExpired_not_yet. cbn. by rewrite Int64_add_exact.
Qed.

(** ** Reads leave the store alone *)

(** C8: [Get] and [Has] hand back the store they were given, map included,
    whatever the key and the clock; an item that has expired is reported as
    absent and stays in the map. *)
Theorem reads_do_not_modify
    (now : Z) (key : string) (m : MemoryStore.t) :
  (MemoryStore.Get now key m).2 = m
  ∧ (MemoryStore.Has now key m).2 = m
  ∧ MemoryStore.items (MemoryStore.Get now key m).2 = MemoryStore.items m
  ∧ MemoryStore.items (MemoryStore.Has now key m).2 = MemoryStore.items m
  ∧ (∀ it, MemoryStore.items m !! key = Some it → isExpired now it = true →
       (MemoryStore.Get now key m).1 = (VNil, Some ErrNotFound)
       ∧ (MemoryStore.Has now key m).1 = false
       ∧ MemoryStore.items (MemoryStore.Get now key m).2 !! key = Some it
       ∧ MemoryStore.items (MemoryStore.Has now key m).2 !! key = Some it).
Proof.
  assert (Hget : (MemoryStore.Get now key m).2 = m).
  { unfold MemoryStore.Get. destruct (MemoryStore.items m !! key) as [it |]; [| done].
    by destruct (isExpired now it). }
  assert (Hhas : (MemoryStore.Has now key m).2 = m).
  { unfold MemoryStore.Has. by destruct (MemoryStore.items m !! key). }
  rewrite Hget, Hhas. do 4 (split; [done |]).
  intros it Hit Hexp. destruct (Get_expired now key m it Hit Hexp) as [-> ->].
  by repeat split.
Qed.

(** An item set 150ms ago with a TTL of 100ms: absent for the readers, and
    still in the map after they have looked. *)
Lemma reads_do_not_modify_witness :
  let m := (MemoryStore.Set' 1000 "k" (VString "v") 100000000 (MemoryStore.NewMemoryStore 0)).2 in
  let it := Item (VString "v") 100001000 in
  (MemoryStore.items m !! "k"%string = Some it ∧ isExpired 150001000 it = true)
  ∧ (MemoryStore.Get 150001000 "k" m).1 = (VNil, Some ErrNotFound)
  ∧ (MemoryStore.Has 150001000 "k" m).1 = false
  ∧ MemoryStore.items (MemoryStore.Get 150001000 "k" m).2 !! "k"%string = Some it
  ∧ MemoryStore.items (MemoryStore.Has 150001000 "k" m).2 !! "k"%string = Some it.
Proof.
  intros m it.
  assert (H1 : MemoryStore.items m !! "k"%string = Some it) by reflexivity.
  assert (H2 : isExpired 150001000 it = true) by reflexivity.
  split; [done |].
  exact (proj2 (proj2 (proj2 (proj2 (reads_do_not_modify 150001000 "k" m)))) it H1 H2).
Defined.

(** ** The counter *)

(** C3: what the code does where [Increment] should count. Followed
    through the identifiers of its body, [MemoryStore.Increment] is refused
    at line 329: the name [item] in [&item{...}] stands where a type must,
    and since line 319 it denotes the variable declared there. [Get], which
    declares the same variable and never names the type after it, and
    [Set], which names the type and declares no such variable, pass; so
    does [Decrement], whose one statement is the call of [Increment]. *)
Theorem Increment_does_not_compile :
  Scope.check Scope.package Scope.Increment_body = Scope.NotAType 329 "item"
  ∧ Scope.check Scope.package Scope.Get_body = Scope.Compiles
  ∧ Scope.check Scope.package Scope.Set_body = Scope.Compiles
  ∧ Scope.check Scope.package Scope.Decrement_body = Scope.Compiles.
Proof. repeat split. Qed.

(** [TestMemoryCache], with the greeting of the README: set with a TTL of
    five minutes, seen by [Get] and [Has], deleted, gone. *)
Example TestMemoryCache :
  let m0 := MemoryStore.NewMemoryStore 0 in
  let '(e1, m1) := MemoryStore.Set' 1000 "greeting" (VString "Hello, World!") 300000000000 m0 in
  let '(r2, m2) := MemoryStore.Get 2000 "greeting" m1 in
  let '(h3, m3) := MemoryStore.Has 3000 "greeting" m2 in
  let '(e4, m4) := MemoryStore.Delete "greeting" m3 in
  let '(h5, m5) := MemoryStore.Has 4000 "greeting" m4 in
  (e1, r2, h3, e4, h5) = (None, (VString "Hello, World!", None), true, None, false).
Proof. reflexivity. Qed.

(** ** The facade *)

(** C6: [GetOrSet]. When the [Get] hits, its value is returned with a nil
    error, the variables of the fetcher are as they were (it was not called)
    and the store is the one [Get] left. When the [Get] reports an error and
    the fetcher returns [v] with a nil error, [v] is returned with a nil
    error whatever [SetWithTTL] answers, an error included. The backend is
    any implementation of [Store]. *)
Theorem GetOrSet_contract {S W : Type} {backend : Store.t S}
    (now now' : Z) (key : string) (fetcher : Cache.Fetcher W) (ttl : Z)
    (c : Cache.t S) (w : W) :
  (∀ v c1, Cache.Get now key c = ((v, None), c1) →
     Cache.GetOrSet now now' key fetcher ttl c w = ((v, None), c1, w))
  ∧ (∀ v0 e c1 v w1 err c2,
       Cache.Get now key c = ((v0, Some e), c1) →
       fetcher w = ((v, None), w1) →
       Cache.SetWithTTL now' key v ttl c1 = (err, c2) →
       Cache.GetOrSet now now' key fetcher ttl c w = ((v, None), c2, w1)).
Proof.
  split.
  - intros v c1 Hget. unfold Cache.GetOrSet. by rewrite Hget.
  - intros v0 e c1 v w1 err c2 Hget Hfetch Hset.
    unfold Cache.GetOrSet. rewrite Hget, Hfetch, Hset. by destruct err.
Qed.

(** A miss on a backend that is down, where the store of the fetched value
    fails as well; and a hit on the in-process store, with the counter of
    the fetcher left at [0]. *)
Lemma GetOrSet_contract_witness :
  let down : Cache.t DownStore.t := Cache.Make tt 3600000000000 in
  let mem : Cache.t MemoryStore.t :=
    (Cache.SetWithTTL 1000 "lazy_key" (VString "cached") 3600000000000
       (Cache.Make (MemoryStore.NewMemoryStore 0) 0)).2 in
  ((Cache.Get 2000 "lazy_key" down = ((VNil, Some ErrRedisUnavailable), down)
    ∧ counting_fetcher 0%nat = ((VString "fetched_value", None), 1%nat)
    ∧ Cache.SetWithTTL 3000 "lazy_key" (VString "fetched_value") 3600000000000 down
      = (Some ErrRedisUnavailable, down))
   ∧ Cache.GetOrSet 2000 3000 "lazy_key" counting_fetcher 3600000000000 down 0%nat
     = ((VString "fetched_value", None), down, 1%nat))
  ∧ (Cache.Get 2000 "lazy_key" mem = ((VString "cached", None), mem)
     ∧ Cache.GetOrSet 2000 3000 "lazy_key" counting_fetcher 3600000000000 mem 0%nat
       = ((VString "cached", None), mem, 0%nat)).
Proof.
  intros down mem.
  assert (H1 : Cache.Get 2000 "lazy_key" down = ((VNil, Some ErrRedisUnavailable), down))
    by reflexivity.
  assert (H2 : counting_fetcher 0%nat = ((VString "fetched_value", None), 1%nat))
    by reflexivity.
  assert (H3 : Cache.SetWithTTL 3000 "lazy_key" (VString "fetched_value") 3600000000000 down
               = (Some ErrRedisUnavailable, down)) by reflexivity.
  assert (H4 : Cache.Get 2000 "lazy_key" mem = ((VString "cached", None), mem))
    by reflexivity.
  split; [split; [done |] | split; [done |]].
  - exact (proj2 (GetOrSet_contract 2000 3000 "lazy_key" counting_fetcher 3600000000000 down 0%nat)
             _ _ _ _ _ _ _ H1 H2 H3).
  - exact (proj1 (GetOrSet_contract 2000 3000 "lazy_key" counting_fetcher 3600000000000 mem 0%nat)
             _ _ H4).
Defined.

(** [TestGetOrSet]: the first call fetches and caches, the second is served
    from the cache and [fetchCount] stays at [1]. *)
Example TestGetOrSet :
  let c0 : Cache.t MemoryStore.t := Cache.Make (MemoryStore.NewMemoryStore 0) 0 in
  let '(r1, c1, n1) := Cache.GetOrSet 1000 1100 "lazy_key" counting_fetcher 3600000000000 c0 0%nat in
  let '(r2, c2, n2) := Cache.GetOrSet 2000 2100 "lazy_key" counting_fetcher 3600000000000 c1 n1 in
  (r1, n1) = ((VString "fetched_value", None), 1%nat)
  ∧ (r2, n2) = ((VString "fetched_value", None), 1%nat).
Proof. split; reflexivity. Qed.

(** ** The JSON helpers *)

(** What [GetJSON] does with the value [Get] returns, for any backend and
    any codec: a string is decoded as it stands, and so is a byte slice; the
    nil interface is refused; any other value is encoded and decoded
    again. *)
Section GetJSON.
Context {S : Type} {backend : Store.t S} {codec : json.Codec}.
Variables (now : Z) (key : string) (dest : Value) (c c1 : Cache.t S).

Lemma GetJSON_string (s : string) :
  Cache.Get now key c = ((VString s, None), c1) →
  Cache.GetJSON now key dest c
  = (json.Unmarshal (String.list_byte_of_string s) dest, c1).
Proof. intros Hget. unfold Cache.GetJSON. by rewrite Hget. Qed.

Lemma GetJSON_bytes (bs : list byte) :
  Cache.Get now key c = ((VBytes bs, None), c1) →
  Cache.GetJSON now key dest c = (json.Unmarshal bs dest, c1).
Proof. intros Hget. unfold Cache.GetJSON. by rewrite Hget. Qed.

Lemma GetJSON_nil :
  Cache.Get now key c = ((VNil, None), c1) →
  Cache.GetJSON now key dest c
  = ((Some (Errorf "cannot unmarshal value of type <nil>"), dest), c1).
Proof. intros Hget. unfold Cache.GetJSON. by rewrite Hget. Qed.

Lemma GetJSON_other (v : Value) (data : list byte) :
  Cache.Get now key c = ((v, None), c1) →
  v ≠ VNil → (∀ s, v ≠ VString s) → (∀ bs, v ≠ VBytes bs) →
  json.Marshal v = (data, None) →
  Cache.GetJSON now key dest c = (json.Unmarshal data dest, c1).
Proof.
  intros Hget Hnil Hstr Hbytes Hdata. unfold Cache.GetJSON. rewrite Hget.
  destruct v; try by rewrite Hdata.
  - done.
  - by destruct (Hstr s).
  - by destruct (Hbytes bs).
Qed.

End GetJSON.

(** On the in-process store [SetJSON] puts the value under the key as it
    was given. *)
Lemma SetJSON_items (now : Z) (key : string) (v : Value) (c : Cache.t MemoryStore.t) :
  value <$> MemoryStore.items (Cache.store (Cache.SetJSON now key v c).2) !! key = Some v.
Proof. cbn. by rewrite lookup_insert_eq. Qed.

Lemma Cache_with_store_same {S : Type} (c : Cache.t S) :
  Cache.with_store c (Cache.store c) = c.
Proof. by destruct c. Qed.

(** A value written with the default TTL is found by [Get] while the
    instant stored has not passed, or for ever when the default TTL is not
    positive. *)
Lemma Cache_Get_after_SetJSON
    (now now' : Z) (key : string) (v : Value) (c : Cache.t MemoryStore.t) :
  Cache.defaultTTL c <= 0 ∨ now' <= Int64.add now (Cache.defaultTTL c) →
  Cache.Get now' key (Cache.SetJSON now key v c).2
  = ((v, None), (Cache.SetJSON now key v c).2).
Proof.
  intros Hlive. set (c' := (Cache.SetJSON now key v c).2).
  assert (Hit : ∃ it, MemoryStore.items (Cache.store c') !! key = Some it
                      ∧ value it = v ∧ isExpired now' it = false).
  { subst c'. cbn. rewrite lookup_insert_eq. eexists. split; [done |]. split; [done |].
    destruct (Z.ltb_spec 0 (Cache.defaultTTL c)) as [Hpos | Hnonpos].
    - apply isExpired_not_yet. cbn. lia.
    - apply isExpired_never. }
  destruct Hit as [it [Hit [Hv Hexp]]].
  unfold Cache.Get. cbn [Store.Get MemoryStore_Store].
  rewrite (proj1 (Get_live now' key (Cache.store c') it Hit Hexp)), Hv.
  by rewrite Cache_with_store_same.
Qed.

(** X27: on the in-process store, a string given to [SetJSON] comes back
    to [GetJSON] as the text to decode, for every codec and as long as the
    item is live: what [GetJSON] returns is what [json.Unmarshal] returns on
    the bytes of the string itself, not on an encoding of it. *)
Lemma SetJSON_GetJSON_raw_string {codec : json.Codec}
    (now now' : Z) (key s : string) (dest : Value) (c : Cache.t MemoryStore.t) :
  Cache.defaultTTL c <= 0 ∨ now' <= Int64.add now (Cache.defaultTTL c) →
  (Cache.GetJSON now' key dest (Cache.SetJSON now key (VString s) c).2).1
  = json.Unmarshal (String.list_byte_of_string s) dest.
Proof.
  intros Hlive.
  by rewrite (GetJSON_string now' key dest _ _ s
                (Cache_Get_after_SetJSON now now' key (VString s) c Hlive)).
Qed.

(** X26: on the in-process store, for every codec and as long as the item
    is live, a value other than nil, a string or a byte slice that
    [json.Marshal] encodes without error and [json.Unmarshal] decodes back
    into the destination comes back from [SetJSON] followed by [GetJSON],
    with a nil error. *)
Lemma SetJSON_GetJSON_other {codec : json.Codec}
    (now now' : Z) (key : string) (v dest : Value) (c : Cache.t MemoryStore.t) :
  Cache.defaultTTL c <= 0 ∨ now' <= Int64.add now (Cache.defaultTTL c) →
  v ≠ VNil → (∀ s, v ≠ VString s) → (∀ bs, v ≠ VBytes bs) →
  (json.Marshal v).2 = None →
  json.Unmarshal (json.Marshal v).1 dest = (None, v) →
  (Cache.GetJSON now' key dest (Cache.SetJSON now key v c).2).1 = (None, v).
Proof.
  intros Hlive Hnil Hstr Hbytes Hok Hround.
  rewrite (GetJSON_other now' key dest _ _ v (json.Marshal v).1
             (Cache_Get_after_SetJSON now now' key v c Hlive) Hnil Hstr Hbytes).
  - done.
  - destruct (json.Marshal v) as [data err]. cbn in Hok. by subst err.
Qed.

(** The codec reads back the strings it writes. *)
Lemma JSONText_unescaped_escaped (s r rest : string) :
  JSONText.escaped s = Some r →
  JSONText.unescaped (r +:+ String JSONText.quote rest) = Some (s, rest).
Proof.
  revert r. induction s as [| a s IH]; intros r Hr; cbn in Hr.
  - injection Hr as <-. reflexivity.
  - destruct (JSONText.escaped s) as [r' |]; [| done]. cbn in Hr.
    specialize (IH r' eq_refl).
    destruct (Ascii.eqb a JSONText.quote || Ascii.eqb a JSONText.backslash) eqn:Hesc.
    + injection Hr as <-.
      change (JSONText.unescaped
                (String JSONText.backslash (String a (r' +:+ String JSONText.quote rest)))
              = Some (String a s, rest)).
      cbn [JSONText.unescaped]. rewrite Hesc, IH. reflexivity.
    + destruct (JSONText.plain a) eqn:Hplain; [| done].
      injection Hr as <-.
      change (JSONText.unescaped (String a (r' +:+ String JSONText.quote rest))
              = Some (String a s, rest)).
      cbn [JSONText.unescaped].
      apply orb_false_elim in Hesc as [-> ->].
      by rewrite Hplain, IH.
Qed.

Lemma JSONText_string_round_trip (s d : string) :
  (JSONText.Marshal (VString s)).2 = None →
  JSONText.Unmarshal (JSONText.Marshal (VString s)).1 (VString d) = (None, VString s).
Proof.
  unfold JSONText.Marshal, JSONText.Unmarshal. cbn [JSONText.encode].
  unfold JSONText.quoted.
  destruct (JSONText.escaped s) as [r |] eqn:Hr; [| done]. intros _. cbn [mbind option_bind fst].
  rewrite String.string_of_list_byte_of_string.
  cbn. by rewrite (JSONText_unescaped_escaped s r EmptyString Hr).
Qed.

(** C4: what the code does where [SetJSON] should encode. [SetJSON] is
    [SetWithTTL] with the default TTL; on the in-process store the item under
    the key then holds the value of the caller itself. For the user of
    [TestJSON], [Get] returns the struct, not a string or a byte slice with
    its JSON text. *)
Theorem SetJSON_keeps_typed_value :
  (∀ (now : Z) (key : string) (v : Value) (c : Cache.t MemoryStore.t),
     Cache.SetJSON now key v c = Cache.SetWithTTL now key v (Cache.defaultTTL c) c
     ∧ value <$> MemoryStore.items (Cache.store (Cache.SetJSON now key v c).2) !! key
       = Some v)
  ∧ (let c : Cache.t MemoryStore.t := Cache.Make (MemoryStore.NewMemoryStore 0) 0 in
     (Cache.Get 2000 "user:123" (Cache.SetJSON 1000 "user:123" User.john c).2).1
     = (VStruct [("id"%string, VInt 123); ("name"%string, VString "John")], None)).
Proof.
  split; [| reflexivity].
  intros now key v c. split; [reflexivity | apply SetJSON_items].
Qed.

(** C5: what the code does where the round trip should hold. The string
    [hello] goes through the codec and back unharmed, yet [SetJSON] followed
    by [GetJSON] into a string variable returns the error of the decoder and
    leaves the variable empty: the text [hello] itself, which is no JSON, was
    given to [json.Unmarshal]. A nil value is refused by [GetJSON] before any
    decoding. *)
Theorem SetJSON_GetJSON_loses_string :
  let c : Cache.t MemoryStore.t := Cache.Make (MemoryStore.NewMemoryStore 0) 0 in
  let c1 := (Cache.SetJSON 1000 "greeting" (VString "hello") c).2 in
  let c2 := (Cache.SetJSON 1000 "nothing" VNil c).2 in
  json.Unmarshal (json.Marshal (VString "hello")).1 (VString EmptyString)
  = (None, VString "hello")
  ∧ (Cache.SetJSON 1000 "greeting" (VString "hello") c).1 = None
  ∧ (Cache.GetJSON 2000 "greeting" (VString EmptyString) c1).1
    = (Some JSONText.refused, VString EmptyString)
  ∧ json.Unmarshal (json.Marshal VNil).1 VNil = (None, VNil)
  ∧ (Cache.GetJSON 2000 "nothing" VNil c2).1
    = (Some (Errorf "cannot unmarshal value of type <nil>"), VNil).
Proof. repeat split. Qed.

(** [TestJSON]: a struct does come back, [GetJSON] encoding and decoding the
    value it finds in the store. *)
Example TestJSON :
  let c : Cache.t MemoryStore.t := Cache.Make (MemoryStore.NewMemoryStore 0) 0 in
  let c1 := (Cache.SetJSON 1000 "user:123" User.john c).2 in
  (Cache.GetJSON 2000 "user:123" User.zero c1).1 = (None, User.john).
Proof. reflexivity. Qed.

(** ** Shutdown *)

Import Lifecycle.

(** Once the reaper has returned, or has gone down with the panic, nothing
    moves any more: no receiver is left for the channel. *)
Lemma step_needs_reaper (s s' : system) :
  step s s' → task s = Starting ∨ task s = Waiting.
Proof. destruct 1; auto. Qed.

Lemma exited_is_final (s s' : system) :
  task s = Exited → rtc step s s' → s' = s.
Proof.
  intros Hexit Hsteps. destruct Hsteps as [| s s1 s' Hstep _]; [done |].
  apply step_needs_reaper in Hstep. destruct Hstep; congruence.
Qed.

Lemma panicked_is_final (s s' : system) :
  task s = Panicked → rtc step s s' → s' = s.
Proof.
  intros Hpanic Hsteps. destruct Hsteps as [| s s1 s' Hstep _]; [done |].
  apply step_needs_reaper in Hstep. destruct Hstep; congruence.
Qed.

Lemma none_returned (n : nat) :
  filter (λ c, has_returned c = true) (replicate n Sending) = [].
Proof.
  induction n as [| n IH]; [done |]. cbn [replicate].
  rewrite filter_cons_False; [done | cbn; discriminate].
Qed.

Lemma one_returned (n i : nat) :
  (i < n)%nat →
  length (filter (λ c, has_returned c = true) (<[i := Returned]> (replicate n Sending)))
  = 1%nat.
Proof.
  revert i. induction n as [| n IH]; intros i Hi; [lia |].
  destruct i as [| i]; cbn [replicate].
  - change (<[0%nat := Returned]> (Sending :: replicate n Sending))
      with (Returned :: replicate n Sending).
    rewrite filter_cons_True by done. by rewrite none_returned.
  - change (<[S i := Returned]> (Sending :: replicate n Sending))
      with (Sending :: <[i := Returned]> (replicate n Sending)).
    rewrite filter_cons_False by (cbn; discriminate). apply IH. lia.
Qed.

Lemma shape_boot (c : Z) (n : nat) : shape c n (boot c n).
Proof. by repeat split. Qed.

Lemma shape_step (c : Z) (n : nat) (s s' : system) :
  shape c n s → step s s' → shape c n s'.
Proof.
  intros [Hc Hs] Hstep. destruct Hstep as [s Ht Hpos | s Ht Hneg | s clock Ht | s i Ht Hi];
    rewrite Ht in Hs; destruct Hs as [Hd Hcalls]; (split; [done |]); cbn.
  - done.
  - repeat split; [lia | done | done].
  - rewrite Ht. done.
  - split; [by rewrite Hd |]. exists i. split; [| by rewrite Hcalls].
    apply lookup_lt_Some in Hi. by rewrite Hcalls, length_replicate in Hi.
Qed.

Lemma shape_reachable (c : Z) (n : nat) (s : system) :
  rtc step (boot c n) s → shape c n s.
Proof.
  revert s. apply rtc_ind_r.
  - apply shape_boot.
  - intros s s' _ Hstep IH. by apply (shape_step c n s s').
Qed.

(** From the state the constructor leaves, with the one call of [Close] at
    its send, the hand-over is two steps away, or one. *)
Lemma lone_Close_completes (c : Z) (s : system) :
  0 < c → shape c 1 s →
  ∃ s', rtc step s s' ∧ calls s' = [Returned] ∧ delivered s' = 1%nat ∧ task s' = Exited.
Proof.
  intros Hpos [Hc Hs]. destruct (task s) eqn:Ht.
  - destruct Hs as [Hd Hcalls].
    exists (handoff (with_task s Waiting) 0). split; [| by cbn; rewrite Hcalls, Hd].
    eapply rtc_l; [apply step_ticker; [done | lia] |].
    apply rtc_once, step_stop; [done |]. cbn. by rewrite Hcalls.
  - destruct Hs as [Hd Hcalls].
    exists (handoff s 0). split; [| by cbn; rewrite Hcalls, Hd].
    apply rtc_once, step_stop; [done |]. by rewrite Hcalls.
  - destruct Hs as [Hd [i [Hi Hcalls]]].
    exists s. split; [done |]. rewrite Hcalls.
    destruct i as [| i]; [done | lia].
  - lia.
Qed.

(** C10, as amended: [Close] hands its notification to the reaper through a
    channel without buffer. In every state the system comes to after
    [NewMemoryStore], with any number of calls of [Close] under way: the
    notifications delivered are as many as the calls that have returned, at
    most one, and there is one exactly when the reaper has returned. Once
    the reaper has returned, a call of [Close] that is at its send stays
    there whatever happens next. With a positive interval and a single call
    of [Close], a state where that call has returned, one notification
    delivered, can always be reached. *)
Theorem Close_hands_over_once (c : Z) (n : nat) (s : system) :
  rtc step (boot c n) s →
  delivered s = returned s
  ∧ (returned s <= 1)%nat
  ∧ (task s = Exited ↔ returned s = 1%nat)
  ∧ (task s = Exited →
       ∀ s' i, rtc step s s' → calls s !! i = Some Sending → calls s' !! i = Some Sending)
  ∧ (0 < c → n = 1%nat →
       ∃ s', rtc step s s' ∧ calls s' = [Returned] ∧ delivered s' = 1%nat
             ∧ task s' = Exited).
Proof.
  intros Hreach. pose proof (shape_reachable c n s Hreach) as Hshape.
  assert (Hcount : delivered s = returned s
                   ∧ (returned s <= 1)%nat ∧ (task s = Exited ↔ returned s = 1%nat)).
  { destruct Hshape as [_ Hs]. unfold returned. destruct (task s).
    - destruct Hs as [-> ->]. rewrite none_returned. cbn. repeat split; (done || lia).
    - destruct Hs as [-> ->]. rewrite none_returned. cbn. repeat split; (done || lia).
    - destruct Hs as [-> [i [Hi ->]]]. rewrite one_returned by done. repeat split; lia.
    - destruct Hs as [_ [-> ->]]. rewrite none_returned. cbn. repeat split; (done || lia). }
  destruct Hcount as [Hd [Hle Hiff]]. do 3 (split; [done |]). split.
  - intros Hexit s' i Hsteps Hi. by rewrite (exited_is_final s s' Hexit Hsteps).
  - intros Hpos ->. by apply (lone_Close_completes c s).
Qed.

(** A store with the default interval of ten minutes. With one call of
    [Close], that call can complete; with two, after the first has been
    served the reaper has returned and the second stays at its send. *)
Lemma Close_hands_over_once_witness :
  let c := 600000000000 in
  let served := handoff (with_task (boot c 2) Waiting) 0 in
  ((rtc step (boot c 1) (boot c 1) ∧ 0 < c)
   ∧ ∃ s', rtc step (boot c 1) s' ∧ calls s' = [Returned] ∧ delivered s' = 1%nat
           ∧ task s' = Exited)
  ∧ ((rtc step (boot c 2) served ∧ task served = Exited)
     ∧ delivered served = returned served
     ∧ ∀ s' i, rtc step served s' → calls served !! i = Some Sending →
               calls s' !! i = Some Sending).
Proof.
  intros c served.
  assert (H1 : rtc step (boot c 1) (boot c 1)) by apply rtc_refl.
  assert (H2 : 0 < c) by (subst c; lia).
  assert (H3 : rtc step (boot c 2) served).
  { eapply rtc_l; [apply step_ticker; [reflexivity | exact H2] |].
    apply rtc_once. apply (step_stop (with_task (boot c 2) Waiting) 0); reflexivity. }
  assert (H4 : task served = Exited) by reflexivity.
  split; (split; [done |]).
  - exact (proj2 (proj2 (proj2 (proj2 (Close_hands_over_once c 1 (boot c 1) H1)))) H2 eq_refl).
  - split.
    + exact (proj1 (Close_hands_over_once c 2 served H3)).
    + exact (proj1 (proj2 (proj2 (proj2 (Close_hands_over_once c 2 served H3)))) H4).
Defined.

(** C10 as it was stated does not hold: [Close] called a second time, after
    the reaper has taken the notification of the first call and returned,
    never returns. *)
Lemma second_Close_blocks_forever :
  let c := 600000000000 in
  let served := handoff (with_task (boot c 2) Waiting) 0 in
  rtc step (boot c 2) served
  ∧ task served = Exited
  ∧ calls served = [Returned; Sending]
  ∧ ¬ ∃ s', rtc step served s' ∧ calls s' !! 1%nat = Some Returned.
Proof.
  intros c served. repeat split.
  - eapply rtc_l; [apply step_ticker; [reflexivity | by subst c] |].
    apply rtc_once. apply (step_stop (with_task (boot c 2) Waiting) 0); reflexivity.
  - intros [s' [Hsteps Hret]].
    rewrite (exited_is_final served s' eq_refl Hsteps) in Hret. discriminate.
Qed.

(** ** Two corners of the clock arithmetic *)

(** Why C1 asks for a clock that is not before the epoch: a [Set] at the
    nanosecond before it, with a TTL of one nanosecond, stores the instant
    [0], which is read as "no expiration". *)
Remark Set_instant_zero :
  let m := (MemoryStore.Set' (-1) "k" (VString "v") 1 (MemoryStore.NewMemoryStore 0)).2 in
  MemoryStore.items m !! "k"%string = Some (Item (VString "v") 0)
  ∧ ∀ now, (MemoryStore.Get now "k" m).1 = (VString "v", None).
Proof. split; reflexivity. Qed.

(** Why C2 speaks of the instant that [Set] stored: a TTL of 2^63 - 1
    nanoseconds added to a clock of today wraps around, the instant stored
    is in the past and the item is absent at once. *)
Remark Set_instant_wraps :
  let now := 1700000000000000000 in
  let m := (MemoryStore.Set' now "k" (VString "v") Int64.max (MemoryStore.NewMemoryStore 0)).2 in
  MemoryStore.items m !! "k"%string = Some (Item (VString "v") (now - 2 ^ 63 - 1))
  ∧ (MemoryStore.Get now "k" m).1 = (VNil, Some ErrNotFound).
Proof. split; reflexivity. Qed.

(** * Further properties of the code *)

(** ** Reads and writes of the in-process store *)

(** What [Get] and [Has] answer for a key depends on the item under that
    key alone. *)
Lemma reads_by_lookup (t : Z) (k : string) (m1 m2 : MemoryStore.t) :
  MemoryStore.items m1 !! k = MemoryStore.items m2 !! k →
  (MemoryStore.Get t k m1).1 = (MemoryStore.Get t k m2).1
  ∧ (MemoryStore.Has t k m1).1 = (MemoryStore.Has t k m2).1.
Proof.
  intros Heq. unfold MemoryStore.Get, MemoryStore.Has.
  rewrite Heq. destruct (MemoryStore.items m2 !! k) as [it |]; [| done].
  by destruct (isExpired t it).
Qed.

(** X1: a write under one key leaves every other key alone. After [Set]
    or [Delete] on [key], [Get] and [Has] on a different key [k] answer
    what they answered before, at every clock. *)
Theorem writes_touch_one_key
    (now : Z) (key k : string) (v : Value) (ttl : Z) (m : MemoryStore.t) (t : Z) :
  k ≠ key →
  ∀ m', m' = (MemoryStore.Set' now key v ttl m).2
        ∨ m' = (MemoryStore.Delete key m).2 →
    MemoryStore.items m' !! k = MemoryStore.items m !! k
    ∧ (MemoryStore.Get t k m').1 = (MemoryStore.Get t k m).1
    ∧ (MemoryStore.Has t k m').1 = (MemoryStore.Has t k m).1.
Proof.
  intros Hne m' Hm'.
  assert (Hsame : MemoryStore.items m' !! k = MemoryStore.items m !! k).
  { destruct Hm' as [-> | ->]; cbn.
    - by apply lookup_insert_ne.
    - by apply lookup_delete_ne. }
  split; [done |]. by apply reads_by_lookup.
Qed.

(** The keys of [TestMultiOperations]: deleting [key1] leaves [key3]. *)
Lemma writes_touch_one_key_witness :
  let m := (MemoryStore.Set' 1000 "key3" (VString "value3") 3600000000000
              (MemoryStore.Set' 1000 "key1" (VString "value1") 3600000000000
                 (MemoryStore.NewMemoryStore 0)).2).2 in
  let m' := (MemoryStore.Delete "key1" m).2 in
  "key3"%string ≠ "key1"%string
  ∧ MemoryStore.items m' !! "key3"%string = MemoryStore.items m !! "key3"%string
  ∧ (MemoryStore.Get 2000 "key3" m').1 = (MemoryStore.Get 2000 "key3" m).1
  ∧ (MemoryStore.Has 2000 "key3" m').1 = (MemoryStore.Has 2000 "key3" m).1.
Proof.
  intros m m'.
  assert (H : "key3"%string ≠ "key1"%string) by discriminate.
  split; [done |].
  exact (writes_touch_one_key 0 "key1" "key3" VNil 0 m 2000 H m' (or_intror eq_refl)).
Defined.

(** X2: the last write wins. [Set] on a key gives the same store whether
    or not the key was written or deleted just before. *)
Theorem Set_overwrites
    (t1 t2 : Z) (key : string) (v1 v2 : Value) (ttl1 ttl2 : Z) (m : MemoryStore.t) :
  MemoryStore.Set' t2 key v2 ttl2 (MemoryStore.Set' t1 key v1 ttl1 m).2
  = MemoryStore.Set' t2 key v2 ttl2 m
  ∧ MemoryStore.Set' t2 key v2 ttl2 (MemoryStore.Delete key m).2
    = MemoryStore.Set' t2 key v2 ttl2 m.
Proof.
  unfold MemoryStore.Set', MemoryStore.Delete, MemoryStore.with_items.
  cbn. split; f_equal; f_equal.
  - apply insert_insert_eq.
  - apply insert_delete_eq.
Qed.

(** An item without expiration outlives every sweep. *)
Lemma sweeps_keep_unexpiring (sweeps : list (string → Z)) (m : MemoryStore.t)
    (key : string) (v : Value) :
  MemoryStore.items m !! key = Some (Item v 0) →
  MemoryStore.items (foldl (λ m clock, MemoryStore.sweep clock m) m sweeps) !! key
  = Some (Item v 0).
Proof.
  revert m. induction sweeps as [| clock sweeps IH]; intros m Hit; [done |].
  cbn [foldl]. apply IH. by rewrite sweep_lookup, Hit.
Qed.

(** X3: a TTL that is not positive means no expiration. After
    [Set(key, v, ttl)] with [ttl <= 0], [Get] returns [v] and [Has] is true
    at every clock, and no sweep of the reaper removes the item. *)
Theorem Set_without_ttl_never_expires
    (now : Z) (key : string) (v : Value) (ttl : Z) (m : MemoryStore.t)
    (t : Z) (sweeps : list (string → Z)) :
  ttl <= 0 →
  let m1 := (MemoryStore.Set' now key v ttl m).2 in
  let m2 := foldl (λ m clock, MemoryStore.sweep clock m) m1 sweeps in
  MemoryStore.Get t key m1 = ((v, None), m1)
  ∧ MemoryStore.Has t key m1 = (true, m1)
  ∧ MemoryStore.Get t key m2 = ((v, None), m2)
  ∧ MemoryStore.Has t key m2 = (true, m2).
Proof.
  intros Httl m1 m2.
  assert (Hit : MemoryStore.items m1 !! key = Some (Item v 0)).
  { subst m1. unfold MemoryStore.Set'. cbn.
    destruct (Z.ltb_spec 0 ttl) as [? | _]; [lia |]. apply lookup_insert_eq. }
  pose proof (sweeps_keep_unexpiring sweeps m1 key v Hit) as Hit2. fold m2 in Hit2.
  destruct (Get_live t key m1 _ Hit (isExpired_never t v)) as [Hg1 Hh1].
  destruct (Get_live t key m2 _ Hit2 (isExpired_never t v)) as [Hg2 Hh2].
  done.
Qed.

(** A value stored with TTL [0], read a year later, a sweep having run. *)
Lemma Set_without_ttl_never_expires_witness :
  let m1 := (MemoryStore.Set' 1000 "config" (VString "v") 0 (MemoryStore.NewMemoryStore 0)).2 in
  let t := 31536000000000000 in
  let m2 := foldl (λ m clock, MemoryStore.sweep clock m) m1 [λ _, t] in
  0 <= 0
  ∧ MemoryStore.Get t "config" m1 = ((VString "v", None), m1)
  ∧ MemoryStore.Has t "config" m1 = (true, m1)
  ∧ MemoryStore.Get t "config" m2 = ((VString "v", None), m2)
  ∧ MemoryStore.Has t "config" m2 = (true, m2).
Proof.
  intros m1 t m2.
  assert (H : 0 <= 0) by lia.
  split; [done |].
  exact (Set_without_ttl_never_expires 1000 "config" (VString "v") 0
           (MemoryStore.NewMemoryStore 0) t [λ _, t] H).
Defined.

(** X4: a deleted key is gone. After [Delete(key)], at every clock, [Get]
    reports [ErrNotFound] and [Has] is false. *)
Theorem Delete_then_read
    (key : string) (m : MemoryStore.t) (t : Z) :
  let m1 := (MemoryStore.Delete key m).2 in
  MemoryStore.Get t key m1 = ((VNil, Some ErrNotFound), m1)
  ∧ MemoryStore.Has t key m1 = (false, m1).
Proof.
  intros m1. apply Get_absent. apply lookup_delete_eq.
Qed.

(** X5: [Clear] gives back the store that [NewMemoryStore] made for the
    same interval; in it, at every clock, every key is reported absent by
    [Get] and by [Has]. *)
Theorem Clear_resets
    (m : MemoryStore.t) (key : string) (t : Z) :
  let m1 := (MemoryStore.Clear m).2 in
  m1 = MemoryStore.NewMemoryStore (MemoryStore.cleanup m)
  ∧ MemoryStore.Get t key m1 = ((VNil, Some ErrNotFound), m1)
  ∧ MemoryStore.Has t key m1 = (false, m1).
Proof.
  intros m1. split; [done |].
  apply Get_absent. apply lookup_empty.
Qed.

(** ** The sweep of the reaper *)

Lemma isExpired_mono (t1 t2 : Z) (it : item) :
  t1 <= t2 → isExpired t1 it = true → isExpired t2 it = true.
Proof.
  unfold isExpired. intros Hle. destruct (expiration it =? 0); [done |].
  rewrite !Z.gtb_ltb, !Z.ltb_lt. lia.
Qed.

(** X10: readers do not see the reaper. If the clock during a sweep was
    not ahead of the clock of a later call, then [Get] and [Has] on any key
    return after the sweep what they would have returned without it. *)
Theorem sweep_is_invisible
    (clock : string → Z) (m : MemoryStore.t) (t : Z) (key : string) :
  clock key <= t →
  (MemoryStore.Get t key (MemoryStore.sweep clock m)).1 = (MemoryStore.Get t key m).1
  ∧ (MemoryStore.Has t key (MemoryStore.sweep clock m)).1 = (MemoryStore.Has t key m).1.
Proof.
  intros Hle. unfold MemoryStore.Get, MemoryStore.Has.
  rewrite sweep_lookup.
  destruct (MemoryStore.items m !! key) as [it |]; [| done].
  destruct (isExpired (clock key) it) eqn:Hswept.
  - by rewrite (isExpired_mono (clock key) t it Hle Hswept).
  - by destruct (isExpired t it).
Qed.

(** An item with a TTL of 100ms, swept at 120ms and read at 150ms. *)
Lemma sweep_is_invisible_witness :
  let m := (MemoryStore.Set' 0 "k" (VString "v") 100000000 (MemoryStore.NewMemoryStore 0)).2 in
  let clock := λ _ : string, 120000000 in
  clock "k"%string <= 150000000
  ∧ (MemoryStore.Get 150000000 "k" (MemoryStore.sweep clock m)).1
    = (MemoryStore.Get 150000000 "k" m).1.
Proof.
  intros m clock.
  assert (H : clock "k"%string <= 150000000) by (subst clock; cbn; lia).
  split; [done |].
  exact (proj1 (sweep_is_invisible clock m 150000000 "k" H)).
Defined.

Lemma MemoryStore_eq (m1 m2 : MemoryStore.t) :
  MemoryStore.items m1 = MemoryStore.items m2 →
  MemoryStore.cleanup m1 = MemoryStore.cleanup m2 → m1 = m2.
Proof. destruct m1, m2. cbn. by intros -> ->. Qed.

(** X11: a sweep removes the expired items and nothing else. An item is in
    the map after the sweep exactly when it was there before and was not
    expired at the reading taken for it; the interval of the store is
    untouched; and a second sweep with the same readings changes nothing. *)
Theorem sweep_removes_expired (clock : string → Z) (m : MemoryStore.t) :
  (∀ key it, MemoryStore.items (MemoryStore.sweep clock m) !! key = Some it
             ↔ MemoryStore.items m !! key = Some it ∧ isExpired (clock key) it = false)
  ∧ MemoryStore.items (MemoryStore.sweep clock m) ⊆ MemoryStore.items m
  ∧ MemoryStore.cleanup (MemoryStore.sweep clock m) = MemoryStore.cleanup m
  ∧ MemoryStore.sweep clock (MemoryStore.sweep clock m) = MemoryStore.sweep clock m.
Proof.
  assert (Hiff : ∀ m key it,
             MemoryStore.items (MemoryStore.sweep clock m) !! key = Some it
             ↔ MemoryStore.items m !! key = Some it ∧ isExpired (clock key) it = false).
  { intros m0 key it. rewrite sweep_lookup.
    destruct (MemoryStore.items m0 !! key) as [it' |].
    - destruct (isExpired (clock key) it') eqn:Hexp.
      + split; [done |]. intros [[= <-] Hlive]. congruence.
      + split; [by intros [= <-] | by intros [? _]].
    - split; [done | by intros [? _]]. }
  split; [apply Hiff |]. split; [apply map_filter_subseteq |]. split; [done |].
  apply MemoryStore_eq; [| done].
  apply map_eq. intros key. apply option_eq. intros it. rewrite !Hiff. tauto.
Qed.

(** ** The bulk operations of the facade *)

Lemma Get_returns_store (t : Z) (key : string) (m : MemoryStore.t) :
  (MemoryStore.Get t key m).2 = m.
Proof.
  unfold MemoryStore.Get. destruct (MemoryStore.items m !! key) as [it |]; [| done].
  by destruct (isExpired t it).
Qed.

(** On the in-process store [Cache.Get] is the [Get] of the store and gives
    the cache back as it was. *)
Lemma Cache_Get_memory (t : Z) (key : string) (c : Cache.t MemoryStore.t) :
  Cache.Get t key c = ((MemoryStore.Get t key (Cache.store c)).1, c).
Proof.
  unfold Cache.Get. cbn [Store.Get MemoryStore_Store].
  pose proof (Get_returns_store t key (Cache.store c)) as Hsame.
  destruct (MemoryStore.Get t key (Cache.store c)) as [r s]. cbn in *. subst s.
  by rewrite Cache_with_store_same.
Qed.

Lemma GetMany_loop_memory (now : Z) (keys : list string) (results : gmap string Value)
    (c : Cache.t MemoryStore.t) :
  (Cache.GetMany_loop (λ _, now) keys results c).2 = c
  ∧ ∀ k, (Cache.GetMany_loop (λ _, now) keys results c).1 !! k
         = if decide (k ∈ keys)
           then match (MemoryStore.Get now k (Cache.store c)).1 with
                | (v, None) => Some v
                | (_, Some _) => results !! k
                end
           else results !! k.
Proof.
  revert results. induction keys as [| key keys IH]; intros results.
  - split; [done |]. intros k. by rewrite decide_False by apply not_elem_of_nil.
  - cbn [Cache.GetMany_loop]. rewrite Cache_Get_memory.
    destruct (MemoryStore.Get now key (Cache.store c)).1 as [value err] eqn:Hget.
    match goal with
    | |- context [Cache.GetMany_loop _ keys ?r c] => destruct (IH r) as [IHc IHr]
    end.
    split; [done |]. intros k. rewrite IHr.
    destruct (decide (k = key)) as [-> | Hne].
    + rewrite (decide_True (P := key ∈ key :: keys)) by apply list_elem_of_here.
      rewrite Hget. destruct err as [e |].
      * by destruct (decide (key ∈ keys)).
      * rewrite lookup_insert_eq. by destruct (decide (key ∈ keys)).
    + assert (Hin : k ∈ key :: keys ↔ k ∈ keys).
      { rewrite elem_of_cons. split; [by intros [? | ?] | by right]. }
      assert (Hres : (match err with
                      | Some _ => results
                      | None => <[key := value]> results
                      end) !! k = results !! k).
      { destruct err; [done |]. by apply lookup_insert_ne. }
      rewrite Hres.
      destruct (decide (k ∈ keys)) as [Hk | Hk].
      * by rewrite decide_True by (by apply Hin).
      * by rewrite decide_False by (by rewrite Hin).
Qed.

(** X12: [GetMany] on the in-process store, the clock standing still. The
    error is nil, the cache is left as it was, and the map returned holds
    [v] under [k] exactly when [k] is one of the keys asked for and [Get]
    returns [v] for it with a nil error: absent and expired keys are left
    out. *)
Theorem GetMany_memory (now : Z) (keys : list string) (c : Cache.t MemoryStore.t) :
  (Cache.GetMany (λ _, now) keys c).1.2 = None
  ∧ (Cache.GetMany (λ _, now) keys c).2 = c
  ∧ ∀ k v, (Cache.GetMany (λ _, now) keys c).1.1 !! k = Some v
           ↔ k ∈ keys ∧ (MemoryStore.Get now k (Cache.store c)).1 = (v, None).
Proof.
  unfold Cache.GetMany.
  destruct (GetMany_loop_memory now keys ∅ c) as [Hc Hr].
  destruct (Cache.GetMany_loop (λ _, now) keys ∅ c) as [results c'].
  cbn in *. split; [done |]. split; [done |].
  intros k v. rewrite Hr. rewrite lookup_empty.
  destruct (decide (k ∈ keys)) as [Hk | Hk]; [| split; [done | by intros [? _]]].
  destruct (MemoryStore.Get now k (Cache.store c)).1 as [v' [e |]].
  - split; [done | by intros [_ ?]].
  - split; [by intros [= ->] | by intros [_ [= ->]]].
Qed.

Lemma GetMany_loop_keys {S : Type} {backend : Store.t S}
    (clock : nat → Z) (keys : list string) (results : gmap string Value) (c : Cache.t S)
    (k : string) (v : Value) :
  (Cache.GetMany_loop clock keys results c).1 !! k = Some v →
  k ∈ keys ∨ results !! k = Some v.
Proof.
  revert clock results c. induction keys as [| key keys IH]; intros clock results c.
  - cbn. by right.
  - cbn [Cache.GetMany_loop].
    destruct (Cache.Get (clock 0%nat) key c) as [[value err] c1].
    intros Hk. apply IH in Hk as [Hk | Hk]; [left; by apply list_elem_of_further |].
    destruct err as [e |]; [by right |].
    destruct (decide (k = key)) as [-> | Hne]; [left; apply list_elem_of_here |].
    right. by rewrite lookup_insert_ne in Hk.
Qed.

(** X13: [GetMany] on any backend, at any clock: the error returned is
    nil, whatever errors the calls of [Get] gave, and the map returned has
    no key that was not asked for; for an empty list of keys it is empty. *)
Theorem GetMany_never_fails {S : Type} {backend : Store.t S}
    (clock : nat → Z) (keys : list string) (c : Cache.t S) :
  (Cache.GetMany clock keys c).1.2 = None
  ∧ (∀ k v, (Cache.GetMany clock keys c).1.1 !! k = Some v → k ∈ keys)
  ∧ Cache.GetMany clock [] c = ((∅, None), c).
Proof.
  split; [| split; [| done]].
  - unfold Cache.GetMany. by destruct (Cache.GetMany_loop clock keys ∅ c).
  - intros k v. unfold Cache.GetMany.
    pose proof (GetMany_loop_keys clock keys ∅ c k v) as Hkeys.
    destruct (Cache.GetMany_loop clock keys ∅ c) as [results c']. cbn in *.
    intros Hk. destruct (Hkeys Hk) as [? | Hempty]; [done |].
    by rewrite lookup_empty in Hempty.
Qed.

(** The instant [Set] stores for a TTL, at a clock reading. *)
Lemma SetWithTTL_memory (t : Z) (key : string) (v : Value) (ttl : Z)
    (c : Cache.t MemoryStore.t) :
  (Cache.SetWithTTL t key v ttl c).1 = None
  ∧ Cache.defaultTTL (Cache.SetWithTTL t key v ttl c).2 = Cache.defaultTTL c
  ∧ MemoryStore.items (Cache.store (Cache.SetWithTTL t key v ttl c).2)
    = <[key := Item v (if 0 <? ttl then Int64.add t ttl else 0)]>
        (MemoryStore.items (Cache.store c)).
Proof. done. Qed.

Lemma SetMany_memory_items (clock : nat → Z) (items : list (string * Value)) (ttl : Z)
    (c : Cache.t MemoryStore.t) :
  (Cache.SetMany clock items ttl c).1 = None
  ∧ Cache.defaultTTL (Cache.SetMany clock items ttl c).2 = Cache.defaultTTL c
  ∧ (∀ k, k ∉ items.*1 →
       MemoryStore.items (Cache.store (Cache.SetMany clock items ttl c).2) !! k
       = MemoryStore.items (Cache.store c) !! k)
  ∧ (NoDup items.*1 → ∀ i k v, items !! i = Some (k, v) →
       MemoryStore.items (Cache.store (Cache.SetMany clock items ttl c).2) !! k
       = Some (Item v (if 0 <? ttl then Int64.add (clock i) ttl else 0))).
Proof.
  revert clock c. induction items as [| [key value] items IH]; intros clock c.
  - by repeat split.
  - cbn [Cache.SetMany].
    destruct (SetWithTTL_memory (clock 0%nat) key value ttl c) as [Herr [Httl Hits]].
    destruct (Cache.SetWithTTL (clock 0%nat) key value ttl c) as [err c1].
    cbn [fst snd] in *. subst err.
    destruct (IH (λ i, clock (S i)) c1) as [IHerr [IHttl [IHframe IHset]]].
    split; [done |]. split; [congruence |]. split.
    + intros k Hk. rewrite fmap_cons, not_elem_of_cons in Hk. destruct Hk as [Hne Hk].
      rewrite (IHframe k Hk), Hits. by apply lookup_insert_ne.
    + intros Hnodup i k v Hi. rewrite fmap_cons in Hnodup.
      apply NoDup_cons in Hnodup as [Hfresh Hnodup].
      destruct i as [| i].
      * injection Hi as <- <-. rewrite (IHframe key Hfresh), Hits.
        apply lookup_insert_eq.
      * by apply (IHset Hnodup i k v).
Qed.

(** X14: [SetMany] on the in-process store. The error is nil; a key that
    is not among the entries keeps the item it had; and, the keys of a map
    being distinct, every entry is afterwards under its key with its value,
    expiring [ttl] after the reading taken for it, or never when [ttl] is
    not positive. *)
Theorem SetMany_memory (clock : nat → Z) (items : list (string * Value)) (ttl : Z)
    (c : Cache.t MemoryStore.t) :
  NoDup items.*1 →
  (Cache.SetMany clock items ttl c).1 = None
  ∧ (∀ k, k ∉ items.*1 →
       MemoryStore.items (Cache.store (Cache.SetMany clock items ttl c).2) !! k
       = MemoryStore.items (Cache.store c) !! k)
  ∧ (∀ i k v, items !! i = Some (k, v) →
       MemoryStore.items (Cache.store (Cache.SetMany clock items ttl c).2) !! k
       = Some (Item v (if 0 <? ttl then Int64.add (clock i) ttl else 0))).
Proof.
  intros Hnodup.
  destruct (SetMany_memory_items clock items ttl c) as [Herr [_ [Hframe Hset]]].
  split; [done |]. split; [done |]. by apply Hset.
Qed.

(** Two of the entries of [TestMultiOperations], with a TTL of one hour. *)
Lemma SetMany_memory_witness :
  let items := [("key1"%string, VString "value1"); ("key2"%string, VString "value2")] in
  let c : Cache.t MemoryStore.t := Cache.Make (MemoryStore.NewMemoryStore 0) 0 in
  let c' := (Cache.SetMany (λ i, 1000 + Z.of_nat i) items 3600000000000 c).2 in
  NoDup items.*1
  ∧ (Cache.SetMany (λ i, 1000 + Z.of_nat i) items 3600000000000 c).1 = None
  ∧ MemoryStore.items (Cache.store c') !! "key2"%string
    = Some (Item (VString "value2") 3600000001001).
Proof.
  intros items c c'.
  assert (H : NoDup items.*1).
  { cbn. apply NoDup_cons. split; [| apply NoDup_singleton].
    intros Hin. apply list_elem_of_singleton in Hin. discriminate. }
  split; [done |].
  pose proof (SetMany_memory (λ i, 1000 + Z.of_nat i) items 3600000000000 c H)
    as [Herr [_ Hset]].
  split; [exact Herr |]. exact (Hset 1%nat "key2"%string (VString "value2") eq_refl).
Defined.

Lemma DeleteMany_memory_items (keys : list string) (c : Cache.t MemoryStore.t) :
  (Cache.DeleteMany keys c).1 = None
  ∧ Cache.defaultTTL (Cache.DeleteMany keys c).2 = Cache.defaultTTL c
  ∧ ∀ k, MemoryStore.items (Cache.store (Cache.DeleteMany keys c).2) !! k
         = if decide (k ∈ keys) then None else MemoryStore.items (Cache.store c) !! k.
Proof.
  revert c. induction keys as [| key keys IH]; intros c.
  - split; [done |]. split; [done |]. intros k.
    by rewrite decide_False by apply not_elem_of_nil.
  - cbn [Cache.DeleteMany].
    assert (Hdel : (Cache.Delete key c).1 = None
                   ∧ Cache.defaultTTL (Cache.Delete key c).2 = Cache.defaultTTL c
                   ∧ MemoryStore.items (Cache.store (Cache.Delete key c).2)
                     = delete key (MemoryStore.items (Cache.store c))) by done.
    destruct Hdel as [Herr [Httl Hits]].
    destruct (Cache.Delete key c) as [err c1]. cbn [fst snd] in *. subst err.
    destruct (IH c1) as [IHerr [IHttl IHk]].
    split; [done |]. split; [congruence |]. intros k. rewrite IHk, Hits.
    destruct (decide (k = key)) as [-> | Hne].
    + rewrite (decide_True (P := key ∈ key :: keys)) by apply list_elem_of_here.
      rewrite lookup_delete_eq. by destruct (decide (key ∈ keys)).
    + rewrite lookup_delete_ne by done.
      destruct (decide (k ∈ keys)) as [Hk | Hk].
      * by rewrite decide_True by (by apply list_elem_of_further).
      * rewrite decide_False; [done |]. rewrite elem_of_cons. by intros [? | ?].
Qed.

(** X15: [DeleteMany] on the in-process store. The error is nil, whether
    the keys were there or not; afterwards the keys listed are out of the
    map, [Has] is false for them at every clock, and every other key has
    the item it had. *)
Theorem DeleteMany_memory (keys : list string) (c : Cache.t MemoryStore.t) :
  (Cache.DeleteMany keys c).1 = None
  ∧ (∀ k, MemoryStore.items (Cache.store (Cache.DeleteMany keys c).2) !! k
          = if decide (k ∈ keys) then None else MemoryStore.items (Cache.store c) !! k)
  ∧ (∀ k t, k ∈ keys → (Cache.Has t k (Cache.DeleteMany keys c).2).1 = false).
Proof.
  destruct (DeleteMany_memory_items keys c) as [Herr [_ Hk]].
  split; [done |]. split; [done |]. intros k t Hin.
  unfold Cache.Has. cbn [Store.Has MemoryStore_Store].
  pose proof (Hk k) as Hnone. rewrite decide_True in Hnone by done.
  by rewrite (proj2 (Get_absent t k _ Hnone)).
Qed.

(** The deletion of [TestMultiOperations]. *)
Lemma DeleteMany_memory_witness :
  let c : Cache.t MemoryStore.t :=
    (Cache.SetMany (λ _, 1000)
       [("key1"%string, VString "value1"); ("key3"%string, VString "value3")]
       3600000000000 (Cache.Make (MemoryStore.NewMemoryStore 0) 0)).2 in
  "key1"%string ∈ ["key1"%string; "key2"%string]
  ∧ (Cache.Has 2000 "key1" (Cache.DeleteMany ["key1"%string; "key2"%string] c).2).1 = false.
Proof.
  intros c.
  assert (H : "key1"%string ∈ ["key1"%string; "key2"%string]) by apply list_elem_of_here.
  split; [done |].
  exact (proj2 (proj2 (DeleteMany_memory ["key1"%string; "key2"%string] c)) "key1"%string 2000 H).
Defined.

Lemma SetMany_app {S : Type} {backend : Store.t S}
    (clock : nat → Z) (l1 l2 : list (string * Value)) (ttl : Z) (c : Cache.t S) :
  Cache.SetMany clock (l1 ++ l2) ttl c
  = match Cache.SetMany clock l1 ttl c with
    | (None, c1) => Cache.SetMany (λ i, clock (length l1 + i)%nat) l2 ttl c1
    | (Some e, c1) => (Some e, c1)
    end.
Proof.
  revert clock c. induction l1 as [| [key value] l1 IH]; intros clock c; [done |].
  cbn [app Cache.SetMany].
  destruct (Cache.SetWithTTL (clock 0%nat) key value ttl c) as [[e |] c1]; [done |].
  by rewrite IH.
Qed.

Lemma DeleteMany_app {S : Type} {backend : Store.t S}
    (l1 l2 : list string) (c : Cache.t S) :
  Cache.DeleteMany (l1 ++ l2) c
  = match Cache.DeleteMany l1 c with
    | (None, c1) => Cache.DeleteMany l2 c1
    | (Some e, c1) => (Some e, c1)
    end.
Proof.
  revert c. induction l1 as [| key l1 IH]; intros c; [done |].
  cbn [app Cache.DeleteMany].
  destruct (Cache.Delete key c) as [[e |] c1]; [done |]. by rewrite IH.
Qed.

(** X16: the bulk writes stop at the first error, on any backend. If
    [SetMany] on the first entries returns an error, [SetMany] on those
    entries followed by more returns that error and that same state: the
    later entries are not tried and what was written is not taken back.
    If it returns nil, the later entries are written from the state
    reached. The same holds of [DeleteMany]. *)
Theorem bulk_writes_stop_at_first_error {S : Type} {backend : Store.t S}
    (clock : nat → Z) (l1 l2 : list (string * Value)) (k1 k2 : list string) (ttl : Z)
    (c : Cache.t S) :
  (∀ e c1, Cache.SetMany clock l1 ttl c = (Some e, c1) →
     Cache.SetMany clock (l1 ++ l2) ttl c = (Some e, c1))
  ∧ (∀ c1, Cache.SetMany clock l1 ttl c = (None, c1) →
       Cache.SetMany clock (l1 ++ l2) ttl c
       = Cache.SetMany (λ i, clock (length l1 + i)%nat) l2 ttl c1)
  ∧ (∀ e c1, Cache.DeleteMany k1 c = (Some e, c1) →
       Cache.DeleteMany (k1 ++ k2) c = (Some e, c1))
  ∧ (∀ c1, Cache.DeleteMany k1 c = (None, c1) →
       Cache.DeleteMany (k1 ++ k2) c = Cache.DeleteMany k2 c1).
Proof.
  repeat split.
  - intros e c1 H1. by rewrite SetMany_app, H1.
  - intros c1 H1. by rewrite SetMany_app, H1.
  - intros e c1 H1. by rewrite DeleteMany_app, H1.
  - intros c1 H1. by rewrite DeleteMany_app, H1.
Qed.

(** A backend that is down: the first entry fails, the second is not
    tried. The in-process store: the first entry is written, then the
    second. *)
Lemma bulk_writes_stop_at_first_error_witness :
  let down : Cache.t DownStore.t := Cache.Make tt 0 in
  let mem : Cache.t MemoryStore.t := Cache.Make (MemoryStore.NewMemoryStore 0) 0 in
  let e1 := [("key1"%string, VString "value1")] in
  let e2 := [("key2"%string, VString "value2")] in
  (Cache.SetMany (λ _, 1000) e1 0 down = (Some ErrRedisUnavailable, down)
   ∧ Cache.SetMany (λ _, 1000) (e1 ++ e2) 0 down = (Some ErrRedisUnavailable, down))
  ∧ (Cache.SetMany (λ _, 1000) e1 0 mem = (None, (Cache.SetMany (λ _, 1000) e1 0 mem).2)
     ∧ Cache.SetMany (λ _, 1000) (e1 ++ e2) 0 mem
       = Cache.SetMany (λ _, 1000) e2 0 (Cache.SetMany (λ _, 1000) e1 0 mem).2)
  ∧ (Cache.DeleteMany ["key1"%string] down = (Some ErrRedisUnavailable, down)
     ∧ Cache.DeleteMany (["key1"%string] ++ ["key2"%string]) down
       = (Some ErrRedisUnavailable, down)).
Proof.
  intros down mem e1 e2.
  assert (H1 : Cache.SetMany (λ _, 1000) e1 0 down = (Some ErrRedisUnavailable, down))
    by reflexivity.
  assert (H2 : Cache.SetMany (λ _, 1000) e1 0 mem
               = (None, (Cache.SetMany (λ _, 1000) e1 0 mem).2)) by reflexivity.
  assert (H3 : Cache.DeleteMany ["key1"%string] down = (Some ErrRedisUnavailable, down))
    by reflexivity.
  split; [split; [done |] | split; [split; [done |] | split; [done |]]].
  - exact (proj1 (bulk_writes_stop_at_first_error (λ _, 1000) e1 e2 [] [] 0 down) _ _ H1).
  - exact (proj1 (proj2 (bulk_writes_stop_at_first_error (λ _, 1000) e1 e2 [] [] 0 mem)) _ H2).
  - exact (proj1 (proj2 (proj2 (bulk_writes_stop_at_first_error (λ _, 1000) [] []
             ["key1"%string] ["key2"%string] 0 down))) _ _ H3).
Defined.

(** ** The cache-aside pattern on the in-process store *)

Lemma Cache_Get_after_SetWithTTL
    (now t : Z) (key : string) (v : Value) (ttl : Z) (c : Cache.t MemoryStore.t) :
  ttl <= 0 ∨ t <= Int64.add now ttl →
  Cache.Get t key (Cache.SetWithTTL now key v ttl c).2
  = ((v, None), (Cache.SetWithTTL now key v ttl c).2).
Proof.
  intros Hlive. rewrite Cache_Get_memory. f_equal.
  destruct (SetWithTTL_memory now key v ttl c) as [_ [_ Hits]].
  refine (f_equal fst (proj1 (Get_live t key _ (Item v _) _ _))).
  - rewrite Hits. apply lookup_insert_eq.
  - destruct (Z.ltb_spec 0 ttl) as [Hpos | Hnonpos].
    + apply isExpired_not_yet. cbn. lia.
    + apply isExpired_never.
Qed.

(** X17: [GetOrSet] caches what it fetched. On the in-process store, when
    the [Get] of a first call misses and the fetcher returns [v] with a nil
    error, the call returns [v]; and a later call, made while the instant
    stored has not passed (at any time when the TTL is not positive),
    returns [v] again without calling its fetcher, whatever that fetcher
    is, and leaves the cache as it is. *)
Theorem GetOrSet_caches {W : Type}
    (now now' t t' : Z) (key : string) (fetcher fetcher' : Cache.Fetcher W)
    (ttl ttl' : Z) (c : Cache.t MemoryStore.t) (w w1 w2 : W) (v : Value) (e : error) :
  (MemoryStore.Get now key (Cache.store c)).1 = (VNil, Some e) →
  fetcher w = ((v, None), w1) →
  ttl <= 0 ∨ t <= Int64.add now' ttl →
  let first := Cache.GetOrSet now now' key fetcher ttl c w in
  first = ((v, None), (Cache.SetWithTTL now' key v ttl c).2, w1)
  ∧ Cache.GetOrSet t t' key fetcher' ttl' first.1.2 w2 = ((v, None), first.1.2, w2).
Proof.
  intros Hmiss Hfetch Hlive first.
  assert (Hfirst : first = ((v, None), (Cache.SetWithTTL now' key v ttl c).2, w1)).
  { subst first. unfold Cache.GetOrSet. rewrite Cache_Get_memory, Hmiss, Hfetch.
    by destruct (Cache.SetWithTTL now' key v ttl c) as [[?|] ?]. }
  split; [done |]. rewrite Hfirst. cbn [fst snd].
  unfold Cache.GetOrSet. by rewrite (Cache_Get_after_SetWithTTL now' t key v ttl c Hlive).
Qed.

(** [TestGetOrSet], with the clock written out. *)
Lemma GetOrSet_caches_witness :
  let c : Cache.t MemoryStore.t := Cache.Make (MemoryStore.NewMemoryStore 0) 0 in
  let first := Cache.GetOrSet 1000 1100 "lazy_key" counting_fetcher 3600000000000 c 0%nat in
  ((MemoryStore.Get 1000 "lazy_key" (Cache.store c)).1 = (VNil, Some ErrNotFound)
   ∧ counting_fetcher 0%nat = ((VString "fetched_value", None), 1%nat)
   ∧ (3600000000000 <= 0 ∨ 2000 <= Int64.add 1100 3600000000000))
  ∧ first = ((VString "fetched_value", None),
             (Cache.SetWithTTL 1100 "lazy_key" (VString "fetched_value") 3600000000000 c).2,
             1%nat)
  ∧ Cache.GetOrSet 2000 2100 "lazy_key" counting_fetcher 3600000000000 first.1.2 1%nat
    = ((VString "fetched_value", None), first.1.2, 1%nat).
Proof.
  intros c first.
  assert (H1 : (MemoryStore.Get 1000 "lazy_key" (Cache.store c)).1 = (VNil, Some ErrNotFound))
    by reflexivity.
  assert (H2 : counting_fetcher 0%nat = ((VString "fetched_value", None), 1%nat))
    by reflexivity.
  assert (H3 : 3600000000000 <= 0 ∨ 2000 <= Int64.add 1100 3600000000000)
    by (right; vm_compute; discriminate).
  split; [done |].
  exact (GetOrSet_caches 1000 1100 2000 2100 "lazy_key" counting_fetcher counting_fetcher
           3600000000000 3600000000000 c 0%nat 1%nat 1%nat (VString "fetched_value")
           ErrNotFound H1 H2 H3).
Defined.

(** X18: a fetch that fails caches nothing. On any backend, when the [Get]
    reports an error and the fetcher returns an error [e], [GetOrSet]
    returns the nil value with [e] and the state the [Get] left: [Set] is
    not called. On the in-process store the cache is exactly as before. *)
Theorem GetOrSet_fetch_error {S W : Type} {backend : Store.t S}
    (now now' : Z) (key : string) (fetcher : Cache.Fetcher W) (ttl : Z)
    (c c1 : Cache.t S) (w w1 : W) (v0 v : Value) (e0 e : error) :
  Cache.Get now key c = ((v0, Some e0), c1) →
  fetcher w = ((v, Some e), w1) →
  Cache.GetOrSet now now' key fetcher ttl c w = ((VNil, Some e), c1, w1)
  ∧ ∀ (m : Cache.t MemoryStore.t),
      (MemoryStore.Get now key (Cache.store m)).1 = (v0, Some e0) →
      Cache.GetOrSet now now' key fetcher ttl m w = ((VNil, Some e), m, w1).
Proof.
  intros Hget Hfetch. split.
  - unfold Cache.GetOrSet. by rewrite Hget, Hfetch.
  - intros m Hmiss. unfold Cache.GetOrSet. by rewrite Cache_Get_memory, Hmiss, Hfetch.
Qed.

(** A fetcher that fails, on an empty in-process store. *)
Lemma GetOrSet_fetch_error_witness :
  let c : Cache.t MemoryStore.t := Cache.Make (MemoryStore.NewMemoryStore 0) 0 in
  let failing : Cache.Fetcher nat := λ n, ((VNil, Some (Errorf "user not found")), S n) in
  (Cache.Get 1000 "user:7" c = ((VNil, Some ErrNotFound), c)
   ∧ failing 0%nat = ((VNil, Some (Errorf "user not found")), 1%nat))
  ∧ Cache.GetOrSet 1000 1100 "user:7" failing 3600000000000 c 0%nat
    = ((VNil, Some (Errorf "user not found")), c, 1%nat).
Proof.
  intros c failing.
  assert (H1 : Cache.Get 1000 "user:7" c = ((VNil, Some ErrNotFound), c)) by reflexivity.
  assert (H2 : failing 0%nat = ((VNil, Some (Errorf "user not found")), 1%nat))
    by reflexivity.
  split; [done |].
  exact (proj1 (GetOrSet_fetch_error 1000 1100 "user:7" failing 3600000000000 c c
                  0%nat 1%nat VNil VNil ErrNotFound (Errorf "user not found") H1 H2)).
Defined.

(** X19: [Forever] bypasses the default TTL. On the in-process store, after
    [Forever(key, v)], [Get] returns [v] at every clock, whatever the
    default TTL of the cache; [Set] does the same when the default TTL is
    not positive, and otherwise gives what [SetWithTTL] gives with the
    default TTL. *)
Theorem Forever_never_expires
    (now t : Z) (key : string) (v : Value) (c : Cache.t MemoryStore.t) :
  Cache.Get t key (Cache.Forever now key v c).2 = ((v, None), (Cache.Forever now key v c).2)
  ∧ Cache.Set' now key v c = Cache.SetWithTTL now key v (Cache.defaultTTL c) c
  ∧ (Cache.defaultTTL c <= 0 →
       Cache.Get t key (Cache.Set' now key v c).2 = ((v, None), (Cache.Set' now key v c).2)).
Proof.
  split; [| split; [done |]].
  - change (Cache.Forever now key v c) with (Cache.SetWithTTL now key v 0 c).
    apply Cache_Get_after_SetWithTTL. left. lia.
  - intros Httl. change (Cache.Set' now key v c)
      with (Cache.SetWithTTL now key v (Cache.defaultTTL c) c).
    apply Cache_Get_after_SetWithTTL. by left.
Qed.

(** The cache of the tests, made from a configuration without a default
    TTL: what [Set] stores is still there ten years later. *)
Lemma Forever_never_expires_witness :
  let c : Cache.t MemoryStore.t := Cache.Make (MemoryStore.NewMemoryStore 0) 0 in
  let t := 315360000000000000 in
  Cache.defaultTTL c <= 0
  ∧ Cache.Get t "key1" (Cache.Set' 1000 "key1" (VString "value1") c).2
    = ((VString "value1", None), (Cache.Set' 1000 "key1" (VString "value1") c).2).
Proof.
  intros c t.
  assert (H : Cache.defaultTTL c <= 0) by (cbn; lia).
  split; [done |].
  exact (proj2 (proj2 (Forever_never_expires 1000 t "key1" (VString "value1") c)) H).
Defined.

(** ** More on the JSON helpers *)

(** X20: [GetJSON] on the in-process store, with any codec. It never
    changes the cache. When [Get] finds no live item under the key it
    returns [ErrNotFound] and leaves the destination as it was; an error of
    the decoder on a stored string is returned as it is. *)
Theorem GetJSON_errors {codec : json.Codec}
    (now : Z) (key : string) (dest : Value) (c : Cache.t MemoryStore.t) :
  (Cache.GetJSON now key dest c).2 = c
  ∧ ((MemoryStore.Has now key (Cache.store c)).1 = false →
       Cache.GetJSON now key dest c = ((Some ErrNotFound, dest), c))
  ∧ (∀ s e dest', (MemoryStore.Get now key (Cache.store c)).1 = (VString s, None) →
       json.Unmarshal (String.list_byte_of_string s) dest = (Some e, dest') →
       (Cache.GetJSON now key dest c).1 = (Some e, dest')).
Proof.
  unfold Cache.GetJSON. rewrite Cache_Get_memory.
  split; [| split].
  - destruct (MemoryStore.Get now key (Cache.store c)).1 as [v [e |]]; [done |].
    destruct v; try done; by destruct (json.Marshal _) as [data [e |]].
  - unfold MemoryStore.Has, MemoryStore.Get.
    destruct (MemoryStore.items (Cache.store c) !! key) as [it |]; [| done].
    by destruct (isExpired now it).
  - intros s e dest' -> Hdec. by rewrite Hdec.
Qed.

(** A key that was never set, read into the user of [TestJSON]. *)
Lemma GetJSON_errors_witness :
  let c : Cache.t MemoryStore.t := Cache.Make (MemoryStore.NewMemoryStore 0) 0 in
  (MemoryStore.Has 1000 "user:9" (Cache.store c)).1 = false
  ∧ Cache.GetJSON 1000 "user:9" User.zero c = ((Some ErrNotFound, User.zero), c).
Proof.
  intros c.
  assert (H : (MemoryStore.Has 1000 "user:9" (Cache.store c)).1 = false) by reflexivity.
  split; [done |].
  exact (proj1 (proj2 (GetJSON_errors 1000 "user:9" User.zero c)) H).
Defined.

(** The string [hello] of C5, with a default TTL of one hour and any
    destination: what [GetJSON] returns is the answer of the decoder to the
    text [hello]. *)
Lemma SetJSON_GetJSON_raw_string_witness :
  let c : Cache.t MemoryStore.t := Cache.Make (MemoryStore.NewMemoryStore 0) 3600000000000 in
  (Cache.defaultTTL c <= 0 ∨ 2000 <= Int64.add 1000 (Cache.defaultTTL c))
  ∧ (Cache.GetJSON 2000 "greeting" (VString EmptyString)
       (Cache.SetJSON 1000 "greeting" (VString "hello") c).2).1
    = json.Unmarshal (String.list_byte_of_string "hello") (VString EmptyString).
Proof.
  intros c.
  assert (H : Cache.defaultTTL c <= 0 ∨ 2000 <= Int64.add 1000 (Cache.defaultTTL c))
    by (right; vm_compute; discriminate).
  split; [done |].
  exact (SetJSON_GetJSON_raw_string 1000 2000 "greeting" "hello" (VString EmptyString) c H).
Defined.

(** The user of [TestJSON]. *)
Lemma SetJSON_GetJSON_other_witness :
  let c : Cache.t MemoryStore.t := Cache.Make (MemoryStore.NewMemoryStore 0) 0 in
  (Cache.defaultTTL c <= 0 ∨ 2000 <= Int64.add 1000 (Cache.defaultTTL c))
  ∧ (Cache.GetJSON 2000 "user:123" User.zero (Cache.SetJSON 1000 "user:123" User.john c).2).1
    = (None, User.john).
Proof.
  intros c.
  assert (H : Cache.defaultTTL c <= 0 ∨ 2000 <= Int64.add 1000 (Cache.defaultTTL c))
    by (left; cbn; lia).
  split; [done |].
  refine (SetJSON_GetJSON_other 1000 2000 "user:123" User.john User.zero c H _ _ _ _ _);
    try reflexivity; try discriminate; intros; discriminate.
Defined.

(** ** Construction *)

(** X21: what [New] returns. A nil configuration is the default one. With
    the memory backend [New] never fails and takes the two durations of the
    configuration as they are, zero included. With the Redis backend an
    empty URL is an error, and otherwise the result follows the constructor
    of the remote store. Any other backend name, the empty one of a zero
    [Config] included, is an error that names it. A cache is returned exactly
    when the error is nil. *)
Theorem New_cases {R : Type} (NewRedisStore : string → R + error) (cfg : Config.t) :
  New NewRedisStore None = New NewRedisStore (Some Config.DefaultConfig)
  ∧ (Config.Backend cfg = Config.BackendMemory →
       New NewRedisStore (Some cfg)
       = (Some (Cache.Make (inl (MemoryStore.NewMemoryStore (Config.CleanupInterval cfg)))
                  (Config.DefaultTTL cfg)), None))
  ∧ (Config.Backend cfg = Config.BackendRedis → Config.RedisURL cfg = EmptyString →
       New NewRedisStore (Some cfg)
       = (None, Some (Errorf "RedisURL is required for Redis backend")))
  ∧ (Config.Backend cfg = Config.BackendRedis → Config.RedisURL cfg ≠ EmptyString →
       New NewRedisStore (Some cfg)
       = match NewRedisStore (Config.RedisURL cfg) with
         | inl store => (Some (Cache.Make (inr store) (Config.DefaultTTL cfg)), None)
         | inr e => (None, Some (Errorf ("failed to create Redis store: " +:+ Error e)))
         end)
  ∧ (Config.Backend cfg ≠ Config.BackendMemory → Config.Backend cfg ≠ Config.BackendRedis →
       New NewRedisStore (Some cfg)
       = (None, Some (Errorf ("unsupported backend: " +:+ Config.Backend cfg))))
  ∧ ((New NewRedisStore (Some cfg)).1 = None ↔ (New NewRedisStore (Some cfg)).2 ≠ None).
Proof.
  split; [done |]. unfold New.
  destruct (String.eqb_spec (Config.Backend cfg) Config.BackendMemory) as [Hmem | Hmem].
  { repeat split; try done; rewrite Hmem; try discriminate. }
  destruct (String.eqb_spec (Config.Backend cfg) Config.BackendRedis) as [Hredis | Hredis].
  - destruct (String.eqb_spec (Config.RedisURL cfg) EmptyString) as [Hurl | Hurl].
    + repeat split; done.
    + destruct (NewRedisStore (Config.RedisURL cfg)) as [store | e]; repeat split; done.
  - repeat split; done.
Qed.

(** The zero [Config], and the one of the tests. *)
Lemma New_cases_witness :
  let none : string → unit + error := λ _, inr ErrRedisUnavailable in
  let zero := Config.Make EmptyString EmptyString 0 0 in
  let test := Config.Make Config.BackendMemory EmptyString 0 0 in
  ((Config.Backend zero ≠ Config.BackendMemory ∧ Config.Backend zero ≠ Config.BackendRedis)
   ∧ New none (Some zero) = (None, Some (Errorf "unsupported backend: ")))
  ∧ (Config.Backend test = Config.BackendMemory
     ∧ New none (Some test)
       = (Some (Cache.Make (inl (MemoryStore.NewMemoryStore 0)) 0), None)).
Proof.
  intros none zero test.
  assert (H1 : Config.Backend zero ≠ Config.BackendMemory) by discriminate.
  assert (H2 : Config.Backend zero ≠ Config.BackendRedis) by discriminate.
  assert (H3 : Config.Backend test = Config.BackendMemory) by reflexivity.
  split; (split; [done |]).
  - exact (proj1 (proj2 (proj2 (proj2 (proj2 (New_cases none zero))))) H1 H2).
  - exact (proj1 (proj2 (New_cases none test)) H3).
Defined.

(** A cache whose store variable holds the in-process store answers as
    that store does. *)
Lemma sum_cache_Set_Get {R : Type} {remote : Store.t R}
    (m : MemoryStore.t) (ttl t0 t1 : Z) (key : string) (v : Value) :
  (Cache.Get t1 key (Cache.Set' t0 key v (Cache.Make (inl m : MemoryStore.t + R) ttl)).2).1
  = (MemoryStore.Get t1 key (MemoryStore.Set' t0 key v ttl m).2).1.
Proof.
  unfold Cache.Get, Cache.Set', MemoryStore.Set'. cbn -[MemoryStore.Get].
  by destruct (MemoryStore.Get _ _ _).
Qed.

(** X22: the cache [New(nil)] makes keeps a value for an hour. With the
    clock at [Set] time not before the epoch and the hour fitting in 64
    bits, [Get] returns the value up to one hour after [Set] and
    [ErrNotFound] from then on. *)
Theorem default_cache_keeps_an_hour {R : Type} {remote : Store.t R}
    (NewRedisStore : string → R + error) (c : Cache.t (MemoryStore.t + R))
    (t0 t1 : Z) (key : string) (v : Value) :
  (New NewRedisStore None).1 = Some c →
  0 <= t0 → t0 + 3600000000000 <= Int64.max →
  (t1 <= t0 + 3600000000000 →
     (Cache.Get t1 key (Cache.Set' t0 key v c).2).1 = (v, None))
  ∧ (t0 + 3600000000000 < t1 →
       (Cache.Get t1 key (Cache.Set' t0 key v c).2).1 = (VNil, Some ErrNotFound)).
Proof.
  intros Hnew Ht0 Hfit. injection Hnew as <-.
  assert (Hadd : Int64.add t0 3600000000000 = t0 + 3600000000000).
  { apply Int64_add_exact. revert Hfit. unfold Int64.in_range, Int64.min, Int64.max. lia. }
  rewrite sum_cache_Set_Get.
  change (1 * 3600000000000) with 3600000000000.
  set (m1 := (MemoryStore.Set' t0 key v 3600000000000
                (MemoryStore.NewMemoryStore (10 * 60000000000))).2).
  assert (Hit : MemoryStore.items m1 !! key = Some (Item v (t0 + 3600000000000))).
  { subst m1. rewrite Set_items by lia. by rewrite Hadd. }
  split; intros Ht1.
  - assert (Hlive : isExpired t1 (Item v (t0 + 3600000000000)) = false)
      by (by apply isExpired_not_yet).
    by rewrite (proj1 (Get_live t1 key m1 _ Hit Hlive)).
  - assert (Hexp : isExpired t1 (Item v (t0 + 3600000000000)) = true)
      by (apply isExpired_past; cbn; lia).
    by rewrite (proj1 (Get_expired t1 key m1 _ Hit Hexp)).
Qed.

(** A value set at some time of 2023 and read half an hour and two hours
    later. *)
Lemma default_cache_keeps_an_hour_witness :
  let none : string → DownStore.t + error := λ _, inr ErrRedisUnavailable in
  let c : Cache.t (MemoryStore.t + DownStore.t) :=
    Cache.Make (inl (MemoryStore.NewMemoryStore (10 * 60000000000))) (1 * 3600000000000) in
  let t0 := 1700000000000000000 in
  ((New none None).1 = Some c ∧ 0 <= t0 ∧ t0 + 3600000000000 <= Int64.max
   ∧ t0 + 1800000000000 <= t0 + 3600000000000
   ∧ t0 + 3600000000000 < t0 + 7200000000000)
  ∧ (Cache.Get (t0 + 1800000000000) "k" (Cache.Set' t0 "k" (VString "v") c).2).1
    = (VString "v", None)
  ∧ (Cache.Get (t0 + 7200000000000) "k" (Cache.Set' t0 "k" (VString "v") c).2).1
    = (VNil, Some ErrNotFound).
Proof.
  intros none c t0.
  assert (H1 : (New none None).1 = Some c) by reflexivity.
  assert (H2 : 0 <= t0) by (subst t0; lia).
  assert (H3 : t0 + 3600000000000 <= Int64.max) by (subst t0; unfold Int64.max; lia).
  assert (H4 : t0 + 1800000000000 <= t0 + 3600000000000) by lia.
  assert (H5 : t0 + 3600000000000 < t0 + 7200000000000) by lia.
  split; [done |]. split.
  - exact (proj1 (default_cache_keeps_an_hour none c t0 (t0 + 1800000000000) "k"
                    (VString "v") H1 H2 H3) H4).
  - exact (proj2 (default_cache_keeps_an_hour none c t0 (t0 + 7200000000000) "k"
                    (VString "v") H1 H2 H3) H5).
Defined.

(** ** The start of the reaper *)

(** X23: the interval decides whether the reaper lives. With an interval
    that is not positive the reaper never gets to its [select]: the system
    is as [NewMemoryStore] left it or the reaper has gone down with the
    panic of [time.NewTicker], and no call of [Close] ever returns. With a
    positive interval the panic never happens. *)
Theorem reaper_needs_positive_interval (c : Z) (n : nat) (s : system) :
  rtc step (boot c n) s →
  (c <= 0 →
     (s = boot c n ∨ s = with_task (boot c n) Panicked)
     ∧ calls s = replicate n Sending ∧ returned s = 0%nat ∧ delivered s = 0%nat
     ∧ rtc step s (with_task (boot c n) Panicked))
  ∧ (0 < c → task s ≠ Panicked).
Proof.
  intros Hreach. split.
  - intros Hc.
    assert (Hs : s = boot c n ∨ s = with_task (boot c n) Panicked).
    { revert s Hreach. apply rtc_ind_r; [by left |].
      intros s s' _ Hstep [-> | ->].
      - inversion Hstep as [s0 Ht Hpos | s0 Ht Hneg | s0 clock Ht | s0 i Ht Hi]; subst.
        + cbn in Hpos. lia.
        + by right.
        + discriminate.
        + discriminate.
      - apply step_needs_reaper in Hstep. cbn in Hstep. destruct Hstep; discriminate. }
    split; [done |].
    assert (Hnone : returned (boot c n) = 0%nat)
      by (unfold returned; cbn; by rewrite none_returned).
    destruct Hs as [-> | ->].
    + repeat split; try done. apply rtc_once. by apply step_panic.
    + repeat split; done.
  - intros Hpos Hpanic. destruct (shape_reachable c n s Hreach) as [_ Hs].
    rewrite Hpanic in Hs. lia.
Qed.

(** The store of the tests, whose configuration gives no interval: the
    reaper is down and the deferred [Close] is still at its send. *)
Lemma reaper_needs_positive_interval_witness :
  let s := with_task (boot 0 1) Panicked in
  (rtc step (boot 0 1) s ∧ 0 <= 0)
  ∧ calls s = [Sending] ∧ returned s = 0%nat.
Proof.
  intros s.
  assert (H1 : rtc step (boot 0 1) s).
  { apply rtc_once. apply (step_panic (boot 0 1)); [reflexivity | cbn; lia]. }
  assert (H2 : 0 <= 0) by lia.
  split; [done |].
  pose proof (proj1 (reaper_needs_positive_interval 0 1 s H1) H2) as [_ [Hcalls [Hret _]]].
  split; [exact Hcalls | exact Hret].
Defined.

(** ** [Has], [Get] and the bulk operations together *)

(** X24: [Has] agrees with [Get]. At the same clock, on any store and key,
    [Has] is true exactly when [Get] returns a value with a nil error, and
    false exactly when [Get] returns the nil value with [ErrNotFound];
    [Get] has no third answer. *)
Theorem Has_agrees_with_Get (t : Z) (key : string) (m : MemoryStore.t) :
  ((MemoryStore.Has t key m).1 = true ↔ (MemoryStore.Get t key m).1.2 = None)
  ∧ ((MemoryStore.Has t key m).1 = false
     ↔ (MemoryStore.Get t key m).1 = (VNil, Some ErrNotFound))
  ∧ ((MemoryStore.Get t key m).1.2 = None
     ∨ (MemoryStore.Get t key m).1 = (VNil, Some ErrNotFound)).
Proof.
  unfold MemoryStore.Has, MemoryStore.Get.
  destruct (MemoryStore.items m !! key) as [it |].
  - destruct (isExpired t it); cbn; repeat split; try done; by auto.
  - cbn. repeat split; try done; by auto.
Qed.

(** X25: what [SetMany] wrote, [GetMany] reads. On the in-process store,
    the keys of the entries being distinct, [GetMany] on those keys after
    [SetMany] returns exactly the entries, provided the reading of
    [GetMany] is not past any of the instants stored (no condition when
    the TTL is not positive). *)
Theorem SetMany_then_GetMany
    (clock : nat → Z) (now : Z) (items : list (string * Value)) (ttl : Z)
    (c : Cache.t MemoryStore.t) :
  NoDup items.*1 →
  ttl <= 0 ∨ (∀ i, (i < length items)%nat → now <= Int64.add (clock i) ttl) →
  ∀ k v, (Cache.GetMany (λ _, now) items.*1 (Cache.SetMany clock items ttl c).2).1.1 !! k
         = Some v
         ↔ (k, v) ∈ items.
Proof.
  intros Hnodup Hlive k v.
  destruct (SetMany_memory_items clock items ttl c) as [_ [_ [_ Hset]]].
  specialize (Hset Hnodup).
  set (c' := (Cache.SetMany clock items ttl c).2) in *.
  unfold Cache.GetMany.
  destruct (GetMany_loop_memory now items.*1 ∅ c') as [_ Hres].
  destruct (Cache.GetMany_loop (λ _, now) items.*1 ∅ c') as [results c''].
  cbn [fst snd] in *. rewrite Hres, lookup_empty.
  assert (Hread : ∀ i k' v', items !! i = Some (k', v') →
            (MemoryStore.Get now k' (Cache.store c')).1 = (v', None)).
  { intros i k' v' Hi.
    refine (f_equal fst (proj1 (Get_live now k' _ _ (Hset i k' v' Hi) _))).
    destruct (Z.ltb_spec 0 ttl) as [Hpos | Hnonpos].
    - apply isExpired_not_yet. cbn. destruct Hlive as [? | Hlive]; [lia |].
      apply Hlive. by apply lookup_lt_Some in Hi.
    - apply isExpired_never. }
  split.
  - destruct (decide (k ∈ items.*1)) as [Hk | Hk]; [| done].
    apply list_elem_of_fmap in Hk as [[k' v'] [-> Hin]]. cbn [fst].
    apply list_elem_of_lookup in Hin as [i Hi].
    rewrite (Hread i k' v' Hi). intros [= <-].
    apply list_elem_of_lookup. by exists i.
  - intros Hin. apply list_elem_of_lookup in Hin as [i Hi].
    rewrite decide_True.
    + by rewrite (Hread i k v Hi).
    + apply list_elem_of_fmap. exists (k, v). split; [done |].
      apply list_elem_of_lookup. by exists i.
Qed.

(** The three entries of [TestMultiOperations], written with a TTL of one
    hour and read a second later. *)
Lemma SetMany_then_GetMany_witness :
  let items := [("key1"%string, VString "value1"); ("key2"%string, VString "value2");
                ("key3"%string, VString "value3")] in
  let c : Cache.t MemoryStore.t := Cache.Make (MemoryStore.NewMemoryStore 0) 0 in
  let results :=
    (Cache.GetMany (λ _, 1000000000) items.*1
       (Cache.SetMany (λ _, 1000) items 3600000000000 c).2).1.1 in
  (NoDup items.*1
   ∧ (3600000000000 <= 0
      ∨ ∀ i, (i < length items)%nat → 1000000000 <= Int64.add 1000 3600000000000))
  ∧ (results !! "key2"%string = Some (VString "value2")
     ↔ ("key2"%string, VString "value2") ∈ items).
Proof.
  intros items c results.
  assert (H1 : NoDup items.*1).
  { cbn. repeat (apply NoDup_cons; split); try apply NoDup_nil_2.
    - intros Hin. repeat (apply elem_of_cons in Hin as [Hin | Hin]; [discriminate |]).
      by apply not_elem_of_nil in Hin.
    - intros Hin. repeat (apply elem_of_cons in Hin as [Hin | Hin]; [discriminate |]).
      by apply not_elem_of_nil in Hin.
    - apply not_elem_of_nil. }
  assert (H2 : 3600000000000 <= 0
               ∨ ∀ i, (i < length items)%nat → 1000000000 <= Int64.add 1000 3600000000000).
  { right. intros i _. vm_compute. discriminate. }
  split; [done |].
  exact (SetMany_then_GetMany (λ _, 1000) 1000000000 items 3600000000000 c H1 H2
           "key2"%string (VString "value2")).
Defined.

(** ** The writers that never fail *)

Lemma Delete_absent (key : string) (m : MemoryStore.t) :
  MemoryStore.items m !! key = None → MemoryStore.Delete key m = (None, m).
Proof.
  intros Hnone. unfold MemoryStore.Delete.
  by rewrite (delete_id _ _ Hnone), with_items_same.
Qed.

(** X28: on the in-process store [Set], [Delete] and [Clear] return a nil
    error on every input. [Delete] of a key that is not in the map returns
    nil and leaves the store as it is, and deleting twice is deleting
    once. *)
Theorem Set_Delete_Clear_return_nil
    (now : Z) (key : string) (v : Value) (ttl : Z) (m : MemoryStore.t) :
  (MemoryStore.Set' now key v ttl m).1 = None
  ∧ (MemoryStore.Delete key m).1 = None
  ∧ (MemoryStore.Clear m).1 = None
  ∧ (MemoryStore.items m !! key = None → MemoryStore.Delete key m = (None, m))
  ∧ MemoryStore.Delete key (MemoryStore.Delete key m).2 = MemoryStore.Delete key m
  ∧ MemoryStore.items (MemoryStore.Delete key m).2 !! key = None.
Proof.
  repeat split; try done.
  - apply Delete_absent.
  - apply Delete_absent. cbn. apply lookup_delete_eq.
  - cbn. apply lookup_delete_eq.
Qed.

(** [Delete] on the empty store of [NewMemoryStore]. *)
Lemma Set_Delete_Clear_return_nil_witness :
  let m := MemoryStore.NewMemoryStore 600000000000 in
  MemoryStore.items m !! "key1"%string = None
  ∧ MemoryStore.Delete "key1" m = (None, m).
Proof.
  intros m.
  assert (H : MemoryStore.items m !! "key1"%string = None) by reflexivity.
  split; [done |].
  exact (proj1 (proj2 (proj2 (proj2 (Set_Delete_Clear_return_nil 0 "key1" VNil 0 m)))) H).
Defined.
